(** * backend/app/models.py: the SQLModel schema of the delivery backend

    The module is declarative: five string enums, the table-backed entities
    and the transfer shapes of User and Item.  The embedding keeps the
    declarations as data, class by class and keyword by keyword, and gives
    them the meaning the SQLModel / pydantic / SQLAlchemy stack gives them:

    - [model_fields]    the fields of a class after inheritance and override;
    - [model_validate]  pydantic validation of an input mapping;
    - [init]            the class constructor, called with keyword arguments;
    - [flush_update]    an UPDATE of a row, with the [onupdate] columns;
    - [session_delete]  deleting a row, with the relationship cascades. *)

From Stdlib Require Import ZArith QArith Ascii String.
From stdpp Require Import gmap strings list fin_maps.

#[local] Set Warnings "-register-all".

Local Open Scope Z_scope.
Local Open Scope string_scope.

(** ** Python values *)

(** A [float]: a finite value (every finite double is a rational), an
    infinity or a NaN. *)
Inductive pyfloat :=
| Finite (q : Q)
| Inf (negative : bool)
| NaN.

(** The values a field can hold.  A [uuid.UUID] is its 128-bit number, a
    [datetime] a count of microseconds; a member of a [str, Enum] class is
    the string it carries. *)
Inductive value :=
| VNone
| VBool (b : bool)
| VInt (z : Z)
| VFloat (x : pyfloat)
| VStr (s : string)
| VUuid (u : N)
| VDatetime (t : Z).

(** A keyword mapping and an instance's attributes. *)
Abbreviation record := (gmap string value).

(** ** Enums (models.py 14-47) *)

Inductive Enum :=
| OrderStatus
| DeliveryStatus
| PaymentStatus
| PaymentMethod
| VehicleType.

(** Member name and member value, in declaration order. *)
Definition members (e : Enum) : list (string * string) :=
  match e with
  | OrderStatus =>
      [("PENDING", "pending"); ("CONFIRMED", "confirmed");
       ("IN_TRANSIT", "in_transit"); ("DELIVERED", "delivered");
       ("CANCELLED", "cancelled")]
  | DeliveryStatus =>
      [("ASSIGNED", "assigned"); ("IN_TRANSIT", "in_transit");
       ("DELIVERED", "delivered"); ("CANCELLED", "cancelled")]
  | PaymentStatus =>
      [("PENDING", "pending"); ("SUCCESSFUL", "successful");
       ("FAILED", "failed")]
  | PaymentMethod =>
      [("CREDIT_CARD", "credit_card"); ("PAYPAL", "paypal");
       ("CRYPTO", "crypto"); ("BANK_TRANSFER", "bank_transfer")]
  | VehicleType =>
      [("BIKE", "bike"); ("CAR", "car"); ("TRUCK", "truck");
       ("AIRPLANE", "airplane"); ("SHIP", "ship")]
  end.

Definition enum_values (e : Enum) : list string := snd <$> members e.

(** ** Field and relationship declarations *)

Inductive PyType :=
| Tstr
| TEmailStr
| Tbool
| Tint
| Tfloat
| TUUID
| Tdatetime
| TEnum (e : Enum).

(** [T] or [T | None]. *)
Inductive Annotation :=
| Ann (t : PyType)
| OrNone (t : PyType).

Inductive Factory :=
| uuid4
| utcnow.

(** The keyword arguments of [Field(...)]. *)
Module Kw.
Inductive t :=
| default (v : value)
| default_factory (f : Factory)
| min_length (n : nat)
| max_length (n : nat)
| ge (z : Z)
| le (z : Z)
| unique (b : bool)
| index (b : bool)
| primary_key (b : bool)
| foreign_key (target : string)
| nullable (b : bool)
| sa_column_kwargs (kw : list (string * Factory)).
End Kw.

(** The right-hand side of an annotated attribute: nothing, a plain default
    ([is_active: bool = True]) or a [Field(...)] call. *)
Inductive Rhs :=
| NoValue
| Assign (v : value)
| Field (kw : list Kw.t).

Record FieldDecl := mkFieldDecl { annotation : Annotation; rhs : Rhs }.

(** The annotation of a relationship attribute: [X], [X | None] or
    [list[X]], with X the name of the target class. *)
Inductive RelAnnotation :=
| One (target : string)
| OptionalOne (target : string)
| Many (target : string).

Module RelKw.
Inductive t :=
| back_populates (attr : string)
| sa_relationship_kwargs (kw : list (string * string)).
End RelKw.

Record RelDecl := mkRelDecl { rel_annotation : RelAnnotation; rel_kw : list RelKw.t }.

(** One line of a class body. *)
Inductive Member :=
| Attr (name : string) (ann : Annotation) (r : Rhs)
| Rel (name : string) (ann : RelAnnotation) (kw : list RelKw.t).

(** [class name(base, table=...)] with its body; [base = None] stands for
    a direct subclass of [SQLModel]. *)
Inductive ModelClass :=
| Class (name : string) (base : option ModelClass) (table : bool) (body : list Member).

Definition class_name (c : ModelClass) : string :=
  match c with Class n _ _ _ => n end.

Definition is_table (c : ModelClass) : bool :=
  match c with Class _ _ t _ => t end.

Definition class_body (c : ModelClass) : list Member :=
  match c with Class _ _ _ b => b end.

(** ** The classes (models.py 51-285) *)

Definition UserBase : ModelClass :=
  Class "UserBase" None false
    [Attr "email" (Ann TEmailStr) (Field [Kw.unique true; Kw.index true; Kw.max_length 255]);
     Attr "is_active" (Ann Tbool) (Assign (VBool true));
     Attr "is_superuser" (Ann Tbool) (Assign (VBool false));
     Attr "full_name" (OrNone Tstr) (Field [Kw.default VNone; Kw.max_length 255])].

Definition UserCreate : ModelClass :=
  Class "UserCreate" (Some UserBase) false
    [Attr "password" (Ann Tstr) (Field [Kw.min_length 8; Kw.max_length 40])].

Definition UserRegister : ModelClass :=
  Class "UserRegister" None false
    [Attr "email" (Ann TEmailStr) (Field [Kw.max_length 255]);
     Attr "password" (Ann Tstr) (Field [Kw.min_length 8; Kw.max_length 40]);
     Attr "full_name" (OrNone Tstr) (Field [Kw.default VNone; Kw.max_length 255])].

Definition UserUpdate : ModelClass :=
  Class "UserUpdate" (Some UserBase) false
    [Attr "email" (OrNone TEmailStr) (Field [Kw.default VNone; Kw.max_length 255]);
     Attr "password" (OrNone Tstr) (Field [Kw.default VNone; Kw.min_length 8; Kw.max_length 40])].

Definition UserUpdateMe : ModelClass :=
  Class "UserUpdateMe" None false
    [Attr "full_name" (OrNone Tstr) (Field [Kw.default VNone; Kw.max_length 255]);
     Attr "email" (OrNone TEmailStr) (Field [Kw.default VNone; Kw.max_length 255])].

Definition UpdatePassword : ModelClass :=
  Class "UpdatePassword" None false
    [Attr "current_password" (Ann Tstr) (Field [Kw.min_length 8; Kw.max_length 40]);
     Attr "new_password" (Ann Tstr) (Field [Kw.min_length 8; Kw.max_length 40])].

Definition User : ModelClass :=
  Class "User" (Some UserBase) true
    [Attr "id" (Ann TUUID) (Field [Kw.default_factory uuid4; Kw.primary_key true]);
     Attr "hashed_password" (Ann Tstr) NoValue;
     Rel "items" (Many "Item")
       [RelKw.back_populates "owner"; RelKw.sa_relationship_kwargs [("cascade", "delete")]]].

Definition UserPublic : ModelClass :=
  Class "UserPublic" (Some UserBase) false
    [Attr "id" (Ann TUUID) NoValue].

Definition ItemBase : ModelClass :=
  Class "ItemBase" None false
    [Attr "title" (Ann Tstr) (Field [Kw.min_length 1; Kw.max_length 255]);
     Attr "description" (OrNone Tstr) (Field [Kw.default VNone; Kw.max_length 255])].

Definition ItemCreate : ModelClass :=
  Class "ItemCreate" (Some ItemBase) false [].

Definition ItemUpdate : ModelClass :=
  Class "ItemUpdate" (Some ItemBase) false
    [Attr "title" (OrNone Tstr) (Field [Kw.default VNone; Kw.min_length 1; Kw.max_length 255])].

Definition Item : ModelClass :=
  Class "Item" (Some ItemBase) true
    [Attr "id" (Ann TUUID) (Field [Kw.default_factory uuid4; Kw.primary_key true]);
     Attr "title" (Ann Tstr) (Field [Kw.max_length 255]);
     Attr "owner_id" (Ann TUUID) (Field [Kw.foreign_key "user.id"; Kw.nullable false]);
     Rel "owner" (OptionalOne "User") [RelKw.back_populates "items"]].

Definition ItemPublic : ModelClass :=
  Class "ItemPublic" (Some ItemBase) false
    [Attr "id" (Ann TUUID) NoValue;
     Attr "owner_id" (Ann TUUID) NoValue].

Definition Address : ModelClass :=
  Class "Address" None true
    [Attr "id" (Ann TUUID) (Field [Kw.default_factory uuid4; Kw.primary_key true]);
     Attr "street" (Ann Tstr) (Field [Kw.max_length 255]);
     Attr "city" (Ann Tstr) (Field [Kw.max_length 100]);
     Attr "state" (OrNone Tstr) (Field [Kw.default VNone; Kw.max_length 100]);
     Attr "postal_code" (Ann Tstr) (Field [Kw.max_length 20]);
     Attr "country" (Ann Tstr) (Field [Kw.max_length 100]);
     Attr "latitude" (OrNone Tfloat) (Field [Kw.default VNone]);
     Attr "longitude" (OrNone Tfloat) (Field [Kw.default VNone])].

Definition DeliveryCompany : ModelClass :=
  Class "DeliveryCompany" None true
    [Attr "id" (Ann TUUID) (Field [Kw.default_factory uuid4; Kw.primary_key true]);
     Attr "name" (Ann Tstr) (Field [Kw.max_length 255]);
     Attr "email" (Ann TEmailStr) (Field [Kw.max_length 255]);
     Attr "phone_number" (Ann Tstr) (Field [Kw.max_length 20]);
     Attr "headquarters_address_id" (Ann TUUID) (Field [Kw.foreign_key "address.id"]);
     Rel "headquarters_address" (One "Address") [];
     Attr "created_at" (Ann Tdatetime) (Field [Kw.default_factory utcnow]);
     Attr "updated_at" (Ann Tdatetime)
       (Field [Kw.default_factory utcnow; Kw.sa_column_kwargs [("onupdate", utcnow)]])].

Definition PackageItem : ModelClass :=
  Class "PackageItem" None true
    [Attr "id" (Ann TUUID) (Field [Kw.default_factory uuid4; Kw.primary_key true]);
     Attr "order_id" (Ann TUUID) (Field [Kw.foreign_key "order.id"]);
     Rel "order" (One "Order")
       [RelKw.back_populates "package_items"; RelKw.sa_relationship_kwargs [("cascade", "delete")]];
     Attr "description" (Ann Tstr) (Field [Kw.max_length 255]);
     Attr "weight" (Ann Tfloat) NoValue;
     Attr "dimensions" (Ann Tstr) (Field [Kw.max_length 50]);
     Attr "quantity" (Ann Tint) NoValue].

Definition Order : ModelClass :=
  Class "Order" None true
    [Attr "id" (Ann TUUID) (Field [Kw.default_factory uuid4; Kw.primary_key true]);
     Attr "customer_name" (Ann Tstr) (Field [Kw.max_length 255]);
     Attr "customer_email" (Ann TEmailStr) (Field [Kw.max_length 255]);
     Attr "sender_address_id" (Ann TUUID) (Field [Kw.foreign_key "address.id"]);
     Attr "recipient_address_id" (Ann TUUID) (Field [Kw.foreign_key "address.id"]);
     Rel "sender_address" (One "Address")
       [RelKw.sa_relationship_kwargs [("foreign_keys", "[Order.sender_address_id]")]];
     Rel "recipient_address" (One "Address")
       [RelKw.sa_relationship_kwargs [("foreign_keys", "[Order.recipient_address_id]")]];
     Attr "status" (Ann (TEnum OrderStatus)) NoValue;
     Attr "total_weight" (OrNone Tfloat) (Field [Kw.default VNone]);
     Attr "total_price" (Ann Tfloat) NoValue;
     Attr "created_at" (Ann Tdatetime) (Field [Kw.default_factory utcnow]);
     Attr "updated_at" (Ann Tdatetime)
       (Field [Kw.default_factory utcnow; Kw.sa_column_kwargs [("onupdate", utcnow)]]);
     Rel "package_items" (Many "PackageItem")
       [RelKw.back_populates "order"; RelKw.sa_relationship_kwargs [("cascade", "delete")]]].

Definition Vehicle : ModelClass :=
  Class "Vehicle" None true
    [Attr "id" (Ann TUUID) (Field [Kw.default_factory uuid4; Kw.primary_key true]);
     Attr "type" (Ann (TEnum VehicleType)) NoValue;
     Attr "registration_number" (Ann Tstr) (Field [Kw.max_length 50]);
     Attr "capacity" (Ann Tfloat) NoValue;
     Attr "current_location" (OrNone Tstr) (Field [Kw.default VNone; Kw.max_length 255]);
     Attr "is_available" (Ann Tbool) (Field [Kw.default (VBool true)]);
     Attr "created_at" (Ann Tdatetime) (Field [Kw.default_factory utcnow]);
     Attr "updated_at" (Ann Tdatetime)
       (Field [Kw.default_factory utcnow; Kw.sa_column_kwargs [("onupdate", utcnow)]])].

Definition Driver : ModelClass :=
  Class "Driver" None true
    [Attr "id" (Ann TUUID) (Field [Kw.default_factory uuid4; Kw.primary_key true]);
     Attr "name" (Ann Tstr) (Field [Kw.max_length 255]);
     Attr "phone_number" (Ann Tstr) (Field [Kw.max_length 20]);
     Attr "license_number" (Ann Tstr) (Field [Kw.max_length 50]);
     Attr "assigned_vehicle_id" (OrNone TUUID) (Field [Kw.default VNone; Kw.foreign_key "vehicle.id"]);
     Rel "assigned_vehicle" (OptionalOne "Vehicle") [];
     Attr "availability" (Ann Tbool) (Field [Kw.default (VBool true)]);
     Attr "current_location" (OrNone Tstr) (Field [Kw.default VNone; Kw.max_length 255]);
     Attr "created_at" (Ann Tdatetime) (Field [Kw.default_factory utcnow]);
     Attr "updated_at" (Ann Tdatetime)
       (Field [Kw.default_factory utcnow; Kw.sa_column_kwargs [("onupdate", utcnow)]])].

Definition Delivery : ModelClass :=
  Class "Delivery" None true
    [Attr "id" (Ann TUUID) (Field [Kw.default_factory uuid4; Kw.primary_key true]);
     Attr "order_id" (Ann TUUID) (Field [Kw.foreign_key "order.id"]);
     Attr "driver_id" (OrNone TUUID) (Field [Kw.default VNone; Kw.foreign_key "driver.id"]);
     Attr "vehicle_id" (OrNone TUUID) (Field [Kw.default VNone; Kw.foreign_key "vehicle.id"]);
     Attr "company_id" (Ann TUUID) (Field [Kw.foreign_key "deliverycompany.id"]);
     Attr "pickup_address_id" (Ann TUUID) (Field [Kw.foreign_key "address.id"]);
     Attr "delivery_address_id" (Ann TUUID) (Field [Kw.foreign_key "address.id"]);
     Rel "order" (One "Order") [];
     Rel "driver" (OptionalOne "Driver") [];
     Rel "vehicle" (OptionalOne "Vehicle") [];
     Rel "company" (One "DeliveryCompany") [];
     Rel "pickup_address" (One "Address")
       [RelKw.sa_relationship_kwargs [("foreign_keys", "[Delivery.pickup_address_id]")]];
     Rel "delivery_address" (One "Address")
       [RelKw.sa_relationship_kwargs [("foreign_keys", "[Delivery.delivery_address_id]")]];
     Attr "status" (Ann (TEnum DeliveryStatus)) NoValue;
     Attr "started_at" (OrNone Tdatetime) (Assign VNone);
     Attr "delivered_at" (OrNone Tdatetime) (Assign VNone)].

Definition Payment : ModelClass :=
  Class "Payment" None true
    [Attr "id" (Ann TUUID) (Field [Kw.default_factory uuid4; Kw.primary_key true]);
     Attr "order_id" (Ann TUUID) (Field [Kw.foreign_key "order.id"]);
     Rel "order" (One "Order") [];
     Attr "amount" (Ann Tfloat) NoValue;
     Attr "payment_method" (Ann (TEnum PaymentMethod)) NoValue;
     Attr "payment_status" (Ann (TEnum PaymentStatus)) NoValue;
     Attr "created_at" (Ann Tdatetime) (Field [Kw.default_factory utcnow])].

Definition Feedback : ModelClass :=
  Class "Feedback" None true
    [Attr "id" (Ann TUUID) (Field [Kw.default_factory uuid4; Kw.primary_key true]);
     Attr "order_id" (Ann TUUID) (Field [Kw.foreign_key "order.id"]);
     Rel "order" (One "Order") [];
     Attr "rating" (Ann Tint) (Field [Kw.ge 1; Kw.le 5]);
     Attr "comment" (OrNone Tstr) (Field [Kw.default VNone; Kw.max_length 1000]);
     Attr "created_at" (Ann Tdatetime) (Field [Kw.default_factory utcnow])].

Definition Promotion : ModelClass :=
  Class "Promotion" None true
    [Attr "id" (Ann TUUID) (Field [Kw.default_factory uuid4; Kw.primary_key true]);
     Attr "code" (Ann Tstr) (Field [Kw.max_length 50]);
     Attr "discount_percentage" (Ann Tfloat) (Field [Kw.ge 0; Kw.le 100]);
     Attr "expiry_date" (Ann Tdatetime) NoValue;
     Attr "applicable_countries" (OrNone Tstr) (Field [Kw.default VNone; Kw.max_length 1000]);
     Attr "created_at" (Ann Tdatetime) (Field [Kw.default_factory utcnow]);
     Attr "updated_at" (Ann Tdatetime)
       (Field [Kw.default_factory utcnow; Kw.sa_column_kwargs [("onupdate", utcnow)]])].

Definition Message : ModelClass :=
  Class "Message" None false
    [Attr "message" (Ann Tstr) NoValue].

Definition Token : ModelClass :=
  Class "Token" None false
    [Attr "access_token" (Ann Tstr) NoValue;
     Attr "token_type" (Ann Tstr) (Assign (VStr "bearer"))].

Definition TokenPayload : ModelClass :=
  Class "TokenPayload" None false
    [Attr "sub" (OrNone Tstr) (Assign VNone)].

Definition NewPassword : ModelClass :=
  Class "NewPassword" None false
    [Attr "token" (Ann Tstr) NoValue;
     Attr "new_password" (Ann Tstr) (Field [Kw.min_length 8; Kw.max_length 40])].

(** The classes declared with [table=True], in source order. *)
Definition tables : list ModelClass :=
  [User; Item; Address; DeliveryCompany; PackageItem; Order; Vehicle; Driver;
   Delivery; Payment; Feedback; Promotion].

(** ** Fields after inheritance *)

(** The first entry of a keyword list under a key. *)
Fixpoint assoc {A : Type} (n : string) (l : list (string * A)) : option A :=
  match l with
  | [] => None
  | (k, v) :: l' => if decide (k = n) then Some v else assoc n l'
  end.

Definition own_fields (body : list Member) : list (string * FieldDecl) :=
  omap (fun m => match m with
                 | Attr n a r => Some (n, mkFieldDecl a r)
                 | Rel _ _ _ => None
                 end) body.

Definition own_relationships (body : list Member) : list (string * RelDecl) :=
  omap (fun m => match m with
                 | Attr _ _ _ => None
                 | Rel n a kw => Some (n, mkRelDecl a kw)
                 end) body.

(** A field declared again in a subclass replaces the inherited declaration
    as a whole (nothing of the base class's [Field(...)] is merged in); a
    new field is added after the inherited ones. *)
Fixpoint set_field (n : string) (d : FieldDecl) (fs : list (string * FieldDecl))
  : list (string * FieldDecl) :=
  match fs with
  | [] => [(n, d)]
  | (n', d') :: fs' =>
      if decide (n = n') then (n, d) :: fs' else (n', d') :: set_field n d fs'
  end.

Fixpoint model_fields (c : ModelClass) : list (string * FieldDecl) :=
  match c with
  | Class _ base _ body =>
      foldl (fun acc nd => set_field nd.1 nd.2 acc)
            (match base with Some b => model_fields b | None => [] end)
            (own_fields body)
  end.

Definition field_names (c : ModelClass) : list string := fst <$> model_fields c.

Definition lookup_field (c : ModelClass) (n : string) : option FieldDecl :=
  assoc n (model_fields c).

(** ** Reading a [Field(...)] call *)

Definition kwargs (r : Rhs) : list Kw.t :=
  match r with Field kw => kw | _ => [] end.

Fixpoint kw_min_length (kw : list Kw.t) : option nat :=
  match kw with
  | [] => None
  | Kw.min_length n :: _ => Some n
  | _ :: kw' => kw_min_length kw'
  end.

Fixpoint kw_max_length (kw : list Kw.t) : option nat :=
  match kw with
  | [] => None
  | Kw.max_length n :: _ => Some n
  | _ :: kw' => kw_max_length kw'
  end.

Fixpoint kw_ge (kw : list Kw.t) : option Z :=
  match kw with
  | [] => None
  | Kw.ge z :: _ => Some z
  | _ :: kw' => kw_ge kw'
  end.

Fixpoint kw_le (kw : list Kw.t) : option Z :=
  match kw with
  | [] => None
  | Kw.le z :: _ => Some z
  | _ :: kw' => kw_le kw'
  end.

Fixpoint kw_foreign_key (kw : list Kw.t) : option string :=
  match kw with
  | [] => None
  | Kw.foreign_key s :: _ => Some s
  | _ :: kw' => kw_foreign_key kw'
  end.

Fixpoint kw_onupdate (kw : list Kw.t) : option Factory :=
  match kw with
  | [] => None
  | Kw.sa_column_kwargs l :: kw' =>
      match assoc "onupdate" l with
      | Some f => Some f
      | None => kw_onupdate kw'
      end
  | _ :: kw' => kw_onupdate kw'
  end.

Inductive Default :=
| Required
| DefaultValue (v : value)
| DefaultFactory (f : Factory).

Fixpoint kw_default (kw : list Kw.t) : Default :=
  match kw with
  | [] => Required
  | Kw.default v :: _ => DefaultValue v
  | Kw.default_factory f :: _ => DefaultFactory f
  | _ :: kw' => kw_default kw'
  end.

Definition field_default (d : FieldDecl) : Default :=
  match rhs d with
  | NoValue => Required
  | Assign v => DefaultValue v
  | Field kw => kw_default kw
  end.

(** ** Validation of one value *)

(** The pydantic error types this schema can raise. *)
Inductive ErrorKind :=
| missing
| string_type
| string_too_short
| string_too_long
| value_error
| bool_type
| int_type
| float_type
| uuid_type
| datetime_type
| enum
| greater_than_equal
| less_than_equal.

#[global] Instance ErrorKind_eq_dec : EqDecision ErrorKind.
Proof. solve_decision. Defined.

Inductive Validated :=
| Valid (v : value)
| Invalid (e : ErrorKind).

(** [x >= b] and [x <= b] on floats; every comparison with a NaN is false. *)
Definition float_ge (x : pyfloat) (b : Z) : bool :=
  match x with
  | Finite q => Qle_bool (inject_Z b) q
  | Inf negative => negb negative
  | NaN => false
  end.

Definition float_le (x : pyfloat) (b : Z) : bool :=
  match x with
  | Finite q => Qle_bool q (inject_Z b)
  | Inf negative => negative
  | NaN => false
  end.

Definition check_length (kw : list Kw.t) (s : string) : Validated :=
  if match kw_min_length kw with
     | Some n => Nat.ltb (String.length s) n
     | None => false
     end
  then Invalid string_too_short
  else if match kw_max_length kw with
          | Some n => Nat.ltb n (String.length s)
          | None => false
          end
  then Invalid string_too_long
  else Valid (VStr s).

Definition check_int (kw : list Kw.t) (z : Z) : Validated :=
  if match kw_le kw with Some b => negb (Z.leb z b) | None => false end
  then Invalid less_than_equal
  else if match kw_ge kw with Some b => negb (Z.leb b z) | None => false end
  then Invalid greater_than_equal
  else Valid (VInt z).

Definition check_float (kw : list Kw.t) (x : pyfloat) : Validated :=
  if match kw_le kw with Some b => negb (float_le x b) | None => false end
  then Invalid less_than_equal
  else if match kw_ge kw with Some b => negb (float_ge x b) | None => false end
  then Invalid greater_than_equal
  else Valid (VFloat x).

Section Validation.

(** [EmailStr] hands the string to the email-validator package; its
    verdict is a parameter of the model. *)
Variable email_valid : string -> bool.

(** Validation of a value against an annotated type and the constraints
    of its [Field(...)].  The input is a value of the annotated Python
    type (an [int] is also taken for a [float] field); an input of
    another type is reported with the type error of the annotation.
    pydantic's further coercions between types (the string "3" for an
    [int], say) are not part of this model, and no statement below
    depends on such an input. *)
Definition validate_typed (t : PyType) (kw : list Kw.t) (v : value) : Validated :=
  match t, v with
  | Tstr, VStr s => check_length kw s
  | Tstr, _ => Invalid string_type
  | TEmailStr, VStr s =>
      match check_length kw s with
      | Valid _ => if email_valid s then Valid (VStr s) else Invalid value_error
      | Invalid e => Invalid e
      end
  | TEmailStr, _ => Invalid string_type
  | Tbool, VBool b => Valid (VBool b)
  | Tbool, _ => Invalid bool_type
  | Tint, VInt z => check_int kw z
  | Tint, _ => Invalid int_type
  | Tfloat, VFloat x => check_float kw x
  | Tfloat, VInt z => check_float kw (Finite (inject_Z z))
  | Tfloat, _ => Invalid float_type
  | TUUID, VUuid u => Valid (VUuid u)
  | TUUID, _ => Invalid uuid_type
  | Tdatetime, VDatetime d => Valid (VDatetime d)
  | Tdatetime, _ => Invalid datetime_type
  | TEnum e, VStr s => if bool_decide (s ∈ enum_values e) then Valid (VStr s) else Invalid enum
  | TEnum e, _ => Invalid enum
  end.

(** [T | None] lets [None] through; the constraints bear on the [T] side. *)
Definition validate_value (d : FieldDecl) (v : value) : Validated :=
  match annotation d, v with
  | OrNone _, VNone => Valid VNone
  | OrNone t, _ => validate_typed t (kwargs (rhs d)) v
  | Ann t, _ => validate_typed t (kwargs (rhs d)) v
  end.

(** *** The outside world of a construction

    [uuid.uuid4] and [datetime.utcnow] read the random source and the
    clock.  The world holds what each successive call returns and how
    many calls have been made. *)
Record World := mkWorld {
  uuids : nat -> N;
  uuid_calls : nat;
  clock : nat -> Z;
  clock_calls : nat
}.

Definition call (f : Factory) (w : World) : value * World :=
  match f with
  | uuid4 =>
      (VUuid (uuids w (uuid_calls w)),
       mkWorld (uuids w) (S (uuid_calls w)) (clock w) (clock_calls w))
  | utcnow =>
      (VDatetime (clock w (clock_calls w)),
       mkWorld (uuids w) (uuid_calls w) (clock w) (S (clock_calls w)))
  end.

(** *** Validation of a mapping against a class *)

Inductive Result :=
| Ok (r : record)
| ValidationError (errors : list (string * ErrorKind)).

(** The state of a validation run: the fields set so far, the errors
    collected so far (all of them are reported, in field order) and the
    world. *)
Definition RunState : Type := record * list (string * ErrorKind) * World.

(** One field: a supplied value is validated; an absent one takes the
    default (defaults are not validated) or is reported missing. *)
Definition validate_field (data : record) (st : RunState) (nd : string * FieldDecl)
  : RunState :=
  let '(r, errs, w) := st in
  let '(n, d) := nd in
  match data !! n with
  | Some v =>
      match validate_value d v with
      | Valid v' => (<[n := v']> r, errs, w)
      | Invalid e => (r, (errs ++ [(n, e)])%list, w)
      end
  | None =>
      match field_default d with
      | Required => (r, (errs ++ [(n, missing)])%list, w)
      | DefaultValue v => (<[n := v]> r, errs, w)
      | DefaultFactory f => let '(v, w') := call f w in (<[n := v]> r, errs, w')
      end
  end.

Definition validate_fields (fields : list (string * FieldDecl)) (data : record)
    (st : RunState) : RunState :=
  foldl (validate_field data) st fields.

(** [cls.model_validate(data)]: runs the validator, for a table class as
    for any other.  Keys of [data] that name no field are ignored. *)
Definition model_validate (c : ModelClass) (data : record) (w : World) : Result * World :=
  let '(r, errs, w') := validate_fields (model_fields c) data (∅, [], w) in
  (match errs with [] => Ok r | _ => ValidationError errs end, w').

(** SQLModel's [sqlmodel_table_construct]: the supplied values are stored
    as they are, an absent field takes its default, and an absent
    required field is left unset.  Nothing is validated. *)
Definition construct_field (data : record) (st : record * World) (nd : string * FieldDecl)
  : record * World :=
  let '(r, w) := st in
  let '(n, d) := nd in
  match data !! n with
  | Some v => (<[n := v]> r, w)
  | None =>
      match field_default d with
      | Required => (r, w)
      | DefaultValue v => (<[n := v]> r, w)
      | DefaultFactory f => let '(v, w') := call f w in (<[n := v]> r, w')
      end
  end.

Definition sqlmodel_table_construct (c : ModelClass) (data : record) (w : World)
  : record * World :=
  foldl (construct_field data) (∅, w) (model_fields c).

(** The constructor, [SQLModel.__init__] through [sqlmodel_init]: a class
    that is not a table runs the validator; a class declared with
    [table=True] is built by [sqlmodel_table_construct], so that
    SQLAlchemy can fill the instance afterwards, and raises no
    ValidationError. *)
Definition init (c : ModelClass) (data : record) (w : World) : Result * World :=
  if is_table c
  then let '(r, w') := sqlmodel_table_construct c data w in (Ok r, w')
  else model_validate c data w.

End Validation.

Definition is_ok (res : Result) : bool :=
  match res with Ok _ => true | ValidationError _ => false end.

(** The failure reports field [n] with error [e]. *)
Definition fails_with (res : Result) (n : string) (e : ErrorKind) : Prop :=
  match res with
  | Ok _ => False
  | ValidationError errs => (n, e) ∈ errs
  end.

(** A run reads the random source and the clock but never rewinds them:
    [w ⊑w w'] when [w'] is [w] after some more calls. *)
Definition world_le (w w' : World) : Prop :=
  uuids w = uuids w' /\ clock w = clock w'
  /\ (uuid_calls w <= uuid_calls w')%nat /\ (clock_calls w <= clock_calls w')%nat.

Infix "⊑w" := world_le (at level 70).

(** ** The schema as a whole *)

(** Every class of the module whose fields are scalars, in source order
    ([UsersPublic] and [ItemsPublic], which only wrap a list of public
    shapes with a count, declare no constraint and are left out). *)
Definition all_classes : list ModelClass :=
  [UserBase; UserCreate; UserRegister; UserUpdate; UserUpdateMe; UpdatePassword;
   User; UserPublic; ItemBase; ItemCreate; ItemUpdate; Item; ItemPublic;
   Address; DeliveryCompany; PackageItem; Order; Vehicle; Driver; Delivery;
   Payment; Feedback; Promotion; Message; Token; TokenPayload; NewPassword].

(** The names of a class and of the classes it derives from. *)
Fixpoint ancestors (c : ModelClass) : list string :=
  match c with
  | Class n base _ _ =>
      n :: match base with Some b => ancestors b | None => [] end
  end.

(** The enum-valued fields of a class, with their enum. *)
Definition enum_fields (c : ModelClass) : list (ModelClass * string * Enum) :=
  omap (fun nd : string * FieldDecl =>
          match annotation nd.2 with
          | Ann (TEnum e) | OrNone (TEnum e) => Some (c, nd.1, e)
          | _ => None
          end) (model_fields c).

(** ** Order on floats, for the statements *)



(** ** Updating a row

    SQLAlchemy's [onupdate]: when an UPDATE is issued for a row, a column
    declared with an [onupdate] callable and absent from the SET clause
    takes the callable's value. *)

Definition onupdate_columns (c : ModelClass) : list (string * Factory) :=
  omap (fun nd : string * FieldDecl =>
          match kw_onupdate (kwargs (rhs nd.2)) with
          | Some f => Some (nd.1, f)
          | None => None
          end) (model_fields c).

Definition restamp (changes : record) (st : record * World) (nf : string * Factory)
  : record * World :=
  let '(r, w) := st in
  match changes !! nf.1 with
  | Some _ => (r, w)
  | None => let '(v, w') := call nf.2 w in (<[nf.1 := v]> r, w')
  end.

(** The flush of a modified row: [changes] holds the columns whose value
    changed (the SET clause).  With no changed column no UPDATE is issued
    and the row stays as it is. *)
Definition flush_update (c : ModelClass) (changes row : record) (w : World)
  : record * World :=
  if decide (changes = ∅) then (row, w)
  else foldl (restamp changes) (changes ∪ row, w) (onupdate_columns c).

(** ** Relationships and the delete cascade *)

Definition lower_ascii (a : ascii) : ascii :=
  let n := nat_of_ascii a in
  if (Nat.leb 65 n && Nat.leb n 90)%bool then ascii_of_nat (n + 32) else a.

Fixpoint lower (s : string) : string :=
  match s with
  | EmptyString => EmptyString
  | String a s' => String (lower_ascii a) (lower s')
  end.

(** SQLModel names the table of a class by the class name in lower case. *)
Definition tablename (c : ModelClass) : string := lower (class_name c).

Fixpoint relationships (c : ModelClass) : list (string * RelDecl) :=
  match c with
  | Class _ base _ body =>
      (match base with Some b => relationships b | None => [] end
       ++ own_relationships body)%list
  end.

Definition rel_target (rd : RelDecl) : string :=
  match rel_annotation rd with
  | One t | OptionalOne t | Many t => t
  end.

Fixpoint sa_relationship_kwargs (kw : list RelKw.t) : list (string * string) :=
  match kw with
  | [] => []
  | RelKw.sa_relationship_kwargs l :: _ => l
  | _ :: kw' => sa_relationship_kwargs kw'
  end.

(** A cascade setting is a comma-separated list of option names. *)
Fixpoint split_options (s cur : string) : list string :=
  match s with
  | EmptyString => [cur]
  | String a s' =>
      if Ascii.eqb a "," then cur :: split_options s' ""
      else if Ascii.eqb a " " then split_options s' cur
      else split_options s' (cur ++ String a "")
  end.

(** Without a setting a relationship cascades save-update and merge only;
    the option all includes delete. *)
Definition cascade_options (rd : RelDecl) : list string :=
  match assoc "cascade" (sa_relationship_kwargs (rel_kw rd)) with
  | Some s => split_options s ""
  | None => ["save-update"; "merge"]
  end.

Definition cascades_delete (rd : RelDecl) : bool :=
  bool_decide ("delete" ∈ cascade_options rd \/ "all" ∈ cascade_options rd).

(** The relationships of a class that declare a delete cascade. *)
Definition cascade_delete_relationships (c : ModelClass) : list (string * string) :=
  omap (fun nr : string * RelDecl =>
          if cascades_delete nr.2 then Some (class_name c, nr.1) else None)
       (relationships c).

(** The columns of [c] that are foreign keys to the table [target]. *)
Definition foreign_key_columns (c : ModelClass) (target : string) : list string :=
  omap (fun nd : string * FieldDecl =>
          match kw_foreign_key (kwargs (rhs nd.2)) with
          | Some t => if decide (t = target ++ ".id") then Some nd.1 else None
          | None => None
          end) (model_fields c).

(** The [foreign_keys] setting of a relationship picks one of them. *)
Definition rel_foreign_keys (c : ModelClass) (rd : RelDecl) (cols : list string)
  : list string :=
  match assoc "foreign_keys" (sa_relationship_kwargs (rel_kw rd)) with
  | Some spec =>
      List.filter (fun col => String.eqb spec ("[" ++ class_name c ++ "." ++ col ++ "]")) cols
  | None => cols
  end.

(** A stored row: its class and its column values. *)
Record Row := mkRow { row_class : ModelClass; attrs : record }.

Definition uuid_at (r : record) (n : string) : option N :=
  match r !! n with
  | Some (VUuid u) => Some u
  | _ => None
  end.

Definition is_uuid (o : option N) (u : N) : bool :=
  match o with
  | Some u' => N.eqb u' u
  | None => false
  end.

(** The rows a relationship of [x] leads to.  If the class of [x] holds the
    foreign key, it is the target row that key points to (many-to-one);
    otherwise the rows of the target class whose foreign key points to [x]
    (one-to-many). *)
Definition related (store : list Row) (x : Row) (rd : RelDecl) : list Row :=
  let target := rel_target rd in
  match rel_foreign_keys (row_class x) rd
          (foreign_key_columns (row_class x) (lower target)) with
  | col :: _ =>
      match uuid_at (attrs x) col with
      | Some u =>
          List.filter (fun y => String.eqb (class_name (row_class y)) target
                                && is_uuid (uuid_at (attrs y) "id") u)%bool store
      | None => []
      end
  | [] =>
      match uuid_at (attrs x) "id" with
      | Some u =>
          List.filter
            (fun y => String.eqb (class_name (row_class y)) target
                      && existsb (fun col => is_uuid (uuid_at (attrs y) col) u)
                           (foreign_key_columns (row_class y) (tablename (row_class x))))%bool
            store
      | None => []
      end
  end.

(** The rows that the deletion of [x] cascades to, one step away. *)
Definition cascade_targets (store : list Row) (x : Row) : list Row :=
  flat_map (fun nr : string * RelDecl =>
              if cascades_delete nr.2 then related store x nr.2 else [])
           (relationships (row_class x)).

(** A row is identified by its class and primary key. *)
Definition key (x : Row) : string * option N :=
  (class_name (row_class x), uuid_at (attrs x) "id").

(** [session.delete(x)] marks [x] and, along the delete cascades, every
    row reachable from it; a row already marked is not visited again. *)
Fixpoint delete_cascade (fuel : nat) (store : list Row) (gone : list (string * option N))
    (x : Row) : list (string * option N) :=
  match fuel with
  | O => gone
  | Datatypes.S fuel' =>
      if bool_decide (key x ∈ gone) then gone
      else foldl (delete_cascade fuel' store) (key x :: gone) (cascade_targets store x)
  end.

(** The rows of the store not marked yet; it bounds the depth of the
    visits still to come. *)
Definition pending (store : list Row) (gone : list (string * option N)) : nat :=
  length (List.filter (fun y => negb (bool_decide (key y ∈ gone))) store).

(** The keys deleted with [x].  Each nested visit marks a new row, so the
    depth never exceeds the number of rows by more than one. *)
Definition deleted_with (store : list Row) (x : Row) : list (string * option N) :=
  delete_cascade (2 + length store) store [] x.

(** The store after [session.delete(x)] and the flush. *)
Definition session_delete (store : list Row) (x : Row) : list Row :=
  List.filter (fun y => negb (bool_decide (key y ∈ deleted_with store x))) store.

(** ** Sample rows *)

Definition address1 : Row := mkRow Address {[ "id" := VUuid 1 ]}.

Definition order10 : Row :=
  mkRow Order {[ "id" := VUuid 10; "sender_address_id" := VUuid 1;
                 "recipient_address_id" := VUuid 1 ]}.

Definition package21 : Row :=
  mkRow PackageItem {[ "id" := VUuid 21; "order_id" := VUuid 10 ]}.

Definition package22 : Row :=
  mkRow PackageItem {[ "id" := VUuid 22; "order_id" := VUuid 10 ]}.

Definition user5 : Row := mkRow User {[ "id" := VUuid 5 ]}.

Definition item31 : Row := mkRow Item {[ "id" := VUuid 31; "owner_id" := VUuid 5 ]}.

Definition item32 : Row := mkRow Item {[ "id" := VUuid 32; "owner_id" := VUuid 5 ]}.

Definition sample_store : list Row :=
  [address1; order10; package21; package22; user5; item31; item32].

(** ** Sample inputs *)

(** A world whose n-th uuid is n and whose n-th clock reading is n. *)
Definition w0 : World := mkWorld N.of_nat 0 Z.of_nat 0.

(** An address check that accepts exactly one address. *)
Definition only_example_org (s : string) : bool := String.eqb s "ann@example.org".

(** The error, if any, that a validation run reports for one field. *)
Definition field_error (email_valid : string -> bool) (data : record)
    (nd : string * FieldDecl) : option (string * ErrorKind) :=
  match data !! nd.1 with
  | Some v =>
      match validate_value email_valid nd.2 v with
      | Invalid e => Some (nd.1, e)
      | Valid _ => None
      end
  | None =>
      match field_default nd.2 with
      | Required => Some (nd.1, missing)
      | _ => None
      end
  end.

(** ** Reading the schema *)

Definition base_type (a : Annotation) : PyType :=
  match a with Ann t | OrNone t => t end.


(** The class of the module with a given name. *)
Definition find_class (name : string) : option ModelClass :=
  List.find (fun c => String.eqb (class_name c) name) all_classes.

(** The declared default of a field is a value its own check lets through
    unchanged; a required field has nothing to fit. *)
Definition default_fits (email_valid : string -> bool) (d : FieldDecl) : Prop :=
  match field_default d with
  | Required => True
  | DefaultValue v => validate_value email_valid d v = Valid v
  | DefaultFactory f => forall w, validate_value email_valid d (call f w).1 = Valid (call f w).1
  end.

(** Where both length bounds are declared, the minimum does not exceed
    the maximum. *)
Definition bounds_ordered (d : FieldDecl) : Prop :=
  match kw_min_length (kwargs (rhs d)), kw_max_length (kwargs (rhs d)) with
  | Some k, Some m => (k <= m)%nat
  | _, _ => True
  end.


#[global] Instance Enum_eq_dec : EqDecision Enum.
Proof. solve_decision. Defined.

#[global] Instance PyType_eq_dec : EqDecision PyType.
Proof. solve_decision. Defined.

#[global] Instance bounds_ordered_dec d : Decision (bounds_ordered d).
Proof.
  unfold bounds_ordered.
  destruct (kw_min_length (kwargs (rhs d))), (kw_max_length (kwargs (rhs d))); apply _.
Defined.

(** The number of times a construction from [data] calls the factory
    [f]: once for each field that defaults to it and is left out. *)
Definition factory_eqb (f g : Factory) : bool :=
  match f, g with
  | uuid4, uuid4 | utcnow, utcnow => true
  | _, _ => false
  end.

Definition draws_of (f : Factory) (data : record) (nd : string * FieldDecl) : bool :=
  match field_default nd.2 with
  | DefaultFactory g =>
      factory_eqb g f && match data !! nd.1 with None => true | Some _ => false end
  | _ => false
  end.

Definition draws (f : Factory) (data : record) (fs : list (string * FieldDecl)) : nat :=
  length (List.filter (draws_of f data) fs).

(** The foreign keys of a class: column and target. *)
Definition foreign_keys (c : ModelClass) : list (string * string) :=
  omap (fun nd : string * FieldDecl =>
          match kw_foreign_key (kwargs (rhs nd.2)) with
          | Some t => Some (nd.1, t)
          | None => None
          end) (model_fields c).

(** The fields of a class declared as primary key. *)
Definition primary_keys (c : ModelClass) : list (string * FieldDecl) :=
  List.filter (fun nd : string * FieldDecl =>
                 existsb (fun k => match k with Kw.primary_key true => true | _ => false end)
                         (kwargs (rhs nd.2)))
              (model_fields c).

(** A foreign key target resolves when it is the [id] column of the table
    of some table class. *)
Definition fk_resolves (target : string) : bool :=
  existsb (fun c => String.eqb target (tablename c ++ ".id")) tables.

Fixpoint kw_back_populates (kw : list RelKw.t) : option string :=
  match kw with
  | [] => None
  | RelKw.back_populates a :: _ => Some a
  | _ :: kw' => kw_back_populates kw'
  end.

(** The columns a relationship joins on: the foreign keys of the class
    towards the target table, narrowed by [foreign_keys], or else the
    foreign keys of the target class towards the table of the class. *)
Definition join_columns (c : ModelClass) (rd : RelDecl) : list string :=
  match rel_foreign_keys c rd (foreign_key_columns c (lower (rel_target rd))) with
  | [] =>
      match find_class (rel_target rd) with
      | Some t => foreign_key_columns t (tablename c)
      | None => []
      end
  | cols => cols
  end.

(** A relationship is well formed when its target is a table class of the
    module, it joins on exactly one column, and the attribute it names in
    [back_populates] is a relationship of the target that points back with
    [back_populates] naming it in turn. *)
Definition relationship_ok (c : ModelClass) (nr : string * RelDecl) : bool :=
  match find_class (rel_target nr.2) with
  | None => false
  | Some t =>
      is_table t
      && Nat.eqb (length (join_columns c nr.2)) 1
      && match kw_back_populates (rel_kw nr.2) with
         | None => true
         | Some b =>
             match assoc b (relationships t) with
             | Some back =>
                 String.eqb (rel_target back) (class_name c)
                 && bool_decide (kw_back_populates (rel_kw back) = Some nr.1)
             | None => false
             end
         end
  end.

(** * Keyword lists *)

Lemma assoc_elem_of {A : Type} (n : string) (l : list (string * A)) (v : A) :
  assoc n l = Some v -> (n, v) ∈ l.
Proof.
  induction l as [|[k x] l IH]; simpl; [done|].
  destruct (decide (k = n)) as [->|].
  - intros [= ->]. apply list_elem_of_here.
  - intros H. apply list_elem_of_further. by apply IH.
Qed.

Lemma assoc_unique {A : Type} (n : string) (l : list (string * A)) (v v' : A) :
  NoDup l.*1 -> (n, v') ∈ l -> assoc n l = Some v -> v' = v.
Proof.
  induction l as [|[k x] l IH]; intros Hnd Hin Has; [done|].
  rewrite fmap_cons in Hnd. apply NoDup_cons in Hnd as [Hk Hnd]. simpl in *.
  apply elem_of_cons in Hin as [Heq|Hin].
  - inversion Heq; subst. rewrite decide_True in Has by done. congruence.
  - destruct (decide (k = n)) as [->|]; [|by apply IH].
    exfalso. apply Hk. apply list_elem_of_fmap. by exists (n, v').
Qed.

(** * The world only moves forward *)

Lemma world_le_refl w : w ⊑w w.
Proof. by repeat split. Qed.

Lemma world_le_trans w1 w2 w3 : w1 ⊑w w2 -> w2 ⊑w w3 -> w1 ⊑w w3.
Proof.
  intros (?&?&?&?) (?&?&?&?). repeat split; (congruence || lia).
Qed.

Lemma call_world_le f w : w ⊑w (call f w).2.
Proof. destruct f; repeat split; simpl; lia. Qed.

(** * Folding a per-field step over the fields of a class

    Both the validator and the table constructor visit the fields in order;
    a step writes at most the key of its own field and moves the world
    forward.  What a run leaves under a key is therefore what the step of
    that field wrote. *)

Section FieldFold.

Context {S : Type} (rec : S -> record) (wld : S -> World)
        (step : S -> string * FieldDecl -> S).

Hypothesis step_other :
  forall st n d m, m ≠ n -> rec (step st (n, d)) !! m = rec st !! m.
Hypothesis step_world : forall st nd, wld st ⊑w wld (step st nd).

Lemma fold_world fs st : wld st ⊑w wld (foldl step st fs).
Proof.
  revert st. induction fs as [|nd fs IH]; intros st; simpl.
  - apply world_le_refl.
  - eapply world_le_trans; [apply step_world | apply IH].
Qed.

Lemma fold_other fs st m :
  m ∉ fs.*1 -> rec (foldl step st fs) !! m = rec st !! m.
Proof.
  revert st. induction fs as [|[n d] fs IH]; intros st Hm; simpl; [done|].
  rewrite fmap_cons, not_elem_of_cons in Hm. destruct Hm as [Hne Hm].
  rewrite IH by done. by apply step_other.
Qed.

Lemma fold_lookup fs st n d :
  NoDup fs.*1 -> (n, d) ∈ fs ->
  exists st1,
    wld st ⊑w wld st1
    /\ wld (step st1 (n, d)) ⊑w wld (foldl step st fs)
    /\ rec (foldl step st fs) !! n = rec (step st1 (n, d)) !! n
    /\ rec st1 !! n = rec st !! n.
Proof.
  revert st. induction fs as [|[n' d'] fs IH]; intros st Hnd Hin.
  - by apply elem_of_nil in Hin.
  - rewrite fmap_cons in Hnd. apply NoDup_cons in Hnd as [Hn' Hnd].
    apply elem_of_cons in Hin as [Heq|Hin].
    + inversion Heq; subst n' d'. exists st. simpl.
      split; [apply world_le_refl|]. split; [apply fold_world|].
      split; [by apply fold_other|done].
    + destruct (IH (step st (n', d')) Hnd Hin) as (st1 & H1 & H2 & H3 & H4).
      exists st1. simpl. split; [|split; [done|split; [done|]]].
      * eapply world_le_trans; [apply step_world | done].
      * rewrite H4. apply step_other. intros ->. apply Hn'.
        apply list_elem_of_fmap. by exists (n', d).
Qed.

End FieldFold.

(** * Facts about the validator and the constructor *)

Section Facts.

Variable email_valid : string -> bool.

Implicit Types (data r : record) (w : World) (fs : list (string * FieldDecl)).
Implicit Types (n m : string) (d : FieldDecl).

Lemma validate_field_errors data r errs w nd :
  (validate_field email_valid data (r, errs, w) nd).1.2
  = (errs ++ from_option (fun e => [e]) [] (field_error email_valid data nd))%list.
Proof.
  destruct nd as [n d]. unfold validate_field, field_error. simpl.
  destruct (data !! n) as [v|].
  - destruct (validate_value email_valid d v); simpl; [by rewrite app_nil_r | done].
  - destruct (field_default d) as [|v|f]; simpl; [done | by rewrite app_nil_r |].
    destruct (call f w). simpl. by rewrite app_nil_r.
Qed.

Lemma validate_fields_errors fs data r errs w :
  (validate_fields email_valid fs data (r, errs, w)).1.2
  = (errs ++ omap (field_error email_valid data) fs)%list.
Proof.
  revert r errs w. induction fs as [|nd fs IH]; intros r errs w.
  - simpl. by rewrite app_nil_r.
  - change (validate_fields email_valid (nd :: fs) data (r, errs, w))
      with (validate_fields email_valid fs data
              (validate_field email_valid data (r, errs, w) nd)).
    pose proof (validate_field_errors data r errs w nd) as H.
    destruct (validate_field email_valid data (r, errs, w) nd) as [[r1 errs1] w1].
    simpl in H. subst errs1. rewrite IH, <- app_assoc. f_equal.
    simpl. by destruct (field_error email_valid data nd).
Qed.

(** The errors of [model_validate] are the errors of the fields, in order. *)
Lemma model_validate_errors c data w :
  (model_validate email_valid c data w).1
  = match omap (field_error email_valid data) (model_fields c) with
    | [] => Ok (validate_fields email_valid (model_fields c) data (∅, [], w)).1.1
    | errs => ValidationError errs
    end.
Proof.
  unfold model_validate.
  pose proof (validate_fields_errors (model_fields c) data ∅ [] w) as H.
  destruct (validate_fields email_valid (model_fields c) data (∅, [], w)) as [[r errs] w'].
  simpl in *. subst errs. by destruct (omap _ _).
Qed.

Lemma model_validate_fails_with c data w n d e :
  (n, d) ∈ model_fields c ->
  field_error email_valid data (n, d) = Some (n, e) ->
  fails_with (model_validate email_valid c data w).1 n e.
Proof.
  intros Hin He. rewrite model_validate_errors.
  assert ((n, e) ∈ omap (field_error email_valid data) (model_fields c)) as Hm.
  { apply list_elem_of_omap. by exists (n, d). }
  destruct (omap _ _); [by apply elem_of_nil in Hm | done].
Qed.

Lemma model_validate_ok c data w :
  Forall (fun nd => field_error email_valid data nd = None) (model_fields c) ->
  is_ok (model_validate email_valid c data w).1 = true.
Proof.
  intros Hall. rewrite model_validate_errors.
  assert (omap (field_error email_valid data) (model_fields c) = []) as ->; [|done].
  induction Hall as [|nd fs Hnd _ IH]; [done|]. simpl. by rewrite Hnd.
Qed.

(** A failure names only fields that have an error. *)
Lemma fails_with_field_error c data w n e :
  fails_with (model_validate email_valid c data w).1 n e ->
  exists d, (n, d) ∈ model_fields c /\ field_error email_valid data (n, d) = Some (n, e).
Proof.
  rewrite model_validate_errors.
  destruct (omap _ _) as [|x l] eqn:E; [done|]. simpl. rewrite <- E.
  intros ([n' d] & Hin & He)%list_elem_of_omap.
  exists d. assert (n' = n) as ->; [|done].
  unfold field_error in He. simpl in He.
  destruct (data !! n'); [destruct (validate_value _ _ _)|destruct (field_default _)];
    congruence.
Qed.

Lemma validate_field_other data (st : RunState) n d m :
  m ≠ n ->
  (validate_field email_valid data st (n, d)).1.1 !! m = st.1.1 !! m.
Proof.
  intros Hne. destruct st as [[r errs] w]. unfold validate_field.
  destruct (data !! n) as [v|].
  - destruct (validate_value _ _ _); simpl; [by rewrite lookup_insert_ne|done].
  - destruct (field_default d) as [|v|f]; simpl; [done|by rewrite lookup_insert_ne|].
    destruct (call f w). simpl. by rewrite lookup_insert_ne.
Qed.

Lemma validate_field_world data (st : RunState) nd :
  st.2 ⊑w (validate_field email_valid data st nd).2.
Proof.
  destruct st as [[r errs] w], nd as [n d]. unfold validate_field.
  destruct (data !! n) as [v|].
  - destruct (validate_value _ _ _); apply world_le_refl.
  - destruct (field_default d) as [|v|f]; try apply world_le_refl.
    pose proof (call_world_le f w). by destruct (call f w).
Qed.

Lemma construct_field_other data (st : record * World) n d m :
  m ≠ n -> (construct_field data st (n, d)).1 !! m = st.1 !! m.
Proof.
  intros Hne. destruct st as [r w]. unfold construct_field.
  destruct (data !! n) as [v|]; simpl; [by rewrite lookup_insert_ne|].
  destruct (field_default d) as [|v|f]; simpl; [done|by rewrite lookup_insert_ne|].
  destruct (call f w). simpl. by rewrite lookup_insert_ne.
Qed.

Lemma construct_field_world data (st : record * World) nd :
  st.2 ⊑w (construct_field data st nd).2.
Proof.
  destruct st as [r w], nd as [n d]. unfold construct_field.
  destruct (data !! n) as [v|]; [apply world_le_refl|].
  destruct (field_default d) as [|v|f]; try apply world_le_refl.
  pose proof (call_world_le f w). by destruct (call f w).
Qed.

(** The validator reads its input only at the names of the fields. *)
Lemma validate_fields_agree fs data1 data2 (st : RunState) :
  (forall n, n ∈ fs.*1 -> data1 !! n = data2 !! n) ->
  validate_fields email_valid fs data1 st = validate_fields email_valid fs data2 st.
Proof.
  revert st. induction fs as [|[n d] fs IH]; intros st Hag; [done|].
  unfold validate_fields in *. simpl.
  assert (validate_field email_valid data1 st (n, d)
          = validate_field email_valid data2 st (n, d)) as ->.
  { unfold validate_field. rewrite (Hag n); [done|]. rewrite fmap_cons. by left. }
  apply IH. intros m Hm. apply Hag. rewrite fmap_cons. by right.
Qed.

(** What the table constructor leaves under the name of a field. *)
Lemma construct_lookup c data w n d :
  NoDup (field_names c) -> (n, d) ∈ model_fields c ->
  exists r1 w1,
    w ⊑w w1
    /\ (construct_field data (r1, w1) (n, d)).2 ⊑w (sqlmodel_table_construct c data w).2
    /\ (sqlmodel_table_construct c data w).1 !! n
       = (construct_field data (r1, w1) (n, d)).1 !! n
    /\ r1 !! n = None.
Proof.
  intros Hnd Hin. unfold sqlmodel_table_construct.
  destruct (fold_lookup fst snd (construct_field data)
              (construct_field_other data) (construct_field_world data)
              (model_fields c) (∅, w) n d Hnd Hin) as ([r1 w1] & H1 & H2 & H3 & H4).
  exists r1, w1. simpl in *. by rewrite lookup_empty in H4.
Qed.


Lemma construct_lookup_supplied c data w n d v :
  NoDup (field_names c) -> (n, d) ∈ model_fields c -> data !! n = Some v ->
  (sqlmodel_table_construct c data w).1 !! n = Some v.
Proof.
  intros Hnd Hin Hv. destruct (construct_lookup c data w n d Hnd Hin)
    as (r1 & w1 & _ & _ & -> & _).
  unfold construct_field. rewrite Hv. simpl. by rewrite lookup_insert_eq.
Qed.

Lemma construct_lookup_default c data w n d v :
  NoDup (field_names c) -> (n, d) ∈ model_fields c ->
  data !! n = None -> field_default d = DefaultValue v ->
  (sqlmodel_table_construct c data w).1 !! n = Some v.
Proof.
  intros Hnd Hin Hnone Hdef. destruct (construct_lookup c data w n d Hnd Hin)
    as (r1 & w1 & _ & _ & -> & _).
  unfold construct_field. rewrite Hnone, Hdef. simpl. by rewrite lookup_insert_eq.
Qed.

(** A field defaulting to [datetime.utcnow] holds a reading of the clock
    taken during the construction. *)
Lemma construct_lookup_utcnow c data w n d :
  NoDup (field_names c) -> (n, d) ∈ model_fields c ->
  data !! n = None -> field_default d = DefaultFactory utcnow ->
  exists k,
    (sqlmodel_table_construct c data w).1 !! n = Some (VDatetime (clock w k))
    /\ (clock_calls w <= k < clock_calls (sqlmodel_table_construct c data w).2)%nat.
Proof.
  intros Hnd Hin Hnone Hdef. destruct (construct_lookup c data w n d Hnd Hin)
    as (r1 & w1 & Hw1 & Hw2 & -> & _).
  revert Hw2. unfold construct_field. rewrite Hnone, Hdef. simpl.
  intros (_ & _ & _ & Hw2). simpl in Hw2. destruct Hw1 as (_ & Hc & _ & Hw1).
  exists (clock_calls w1). rewrite lookup_insert_eq, Hc. split; [done|lia].
Qed.


(** What the validator leaves under the name of a field. *)
Lemma validate_lookup c data w n d :
  NoDup (field_names c) -> (n, d) ∈ model_fields c ->
  exists st1 : RunState,
    (validate_fields email_valid (model_fields c) data (∅, [], w)).1.1 !! n
    = (validate_field email_valid data st1 (n, d)).1.1 !! n.
Proof.
  intros Hnd Hin. unfold validate_fields.
  destruct (fold_lookup (fun st : RunState => st.1.1) snd
              (validate_field email_valid data)
              (validate_field_other data) (validate_field_world data)
              (model_fields c) (∅, [], w) n d Hnd Hin) as (st1 & _ & _ & H3 & _).
  by exists st1.
Qed.

Lemma validate_lookup_nonfield c data w n :
  n ∉ field_names c ->
  (validate_fields email_valid (model_fields c) data (∅, [], w)).1.1 !! n = None.
Proof.
  intros Hn. unfold validate_fields.
  rewrite (fold_other (fun st : RunState => st.1.1)
             (validate_field email_valid data)
             (validate_field_other data) (model_fields c) (∅, [], w) n Hn).
  apply lookup_empty.
Qed.

Lemma model_validate_record c data w r w' :
  model_validate email_valid c data w = (Ok r, w') ->
  r = (validate_fields email_valid (model_fields c) data (∅, [], w)).1.1.
Proof.
  unfold model_validate.
  destruct (validate_fields _ _ _ _) as [[r0 errs] w0]. simpl.
  destruct errs; [|done]. by intros [= ->].
Qed.

Lemma init_record c data w r w' :
  init email_valid c data w = (Ok r, w') ->
  r = if is_table c
      then (sqlmodel_table_construct c data w).1
      else (validate_fields email_valid (model_fields c) data (∅, [], w)).1.1.
Proof.
  unfold init. destruct (is_table c).
  - destruct (sqlmodel_table_construct c data w). simpl. by intros [= ->].
  - apply model_validate_record.
Qed.


(** A field left out of the input holds its declared default. *)
Lemma init_lookup_default c data w r w' n d v :
  NoDup (field_names c) -> (n, d) ∈ model_fields c ->
  data !! n = None -> field_default d = DefaultValue v ->
  init email_valid c data w = (Ok r, w') -> r !! n = Some v.
Proof.
  intros Hnd Hin Hnone Hdef ->%init_record. destruct (is_table c).
  - by eapply construct_lookup_default.
  - destruct (validate_lookup c data w n d Hnd Hin) as ([[r1 e1] w1] & ->).
    unfold validate_field. rewrite Hnone, Hdef. simpl. by rewrite lookup_insert_eq.
Qed.

(** The constructor of a table class raises nothing. *)
Lemma init_table_ok c data w :
  is_table c = true -> is_ok (init email_valid c data w).1 = true.
Proof.
  intros Ht. unfold init. rewrite Ht.
  by destruct (sqlmodel_table_construct c data w).
Qed.

(** The constructor of a table class stores a supplied value as it is. *)
Lemma init_table_stores c data w n d v :
  is_table c = true -> NoDup (field_names c) -> (n, d) ∈ model_fields c ->
  data !! n = Some v ->
  exists r, (init email_valid c data w).1 = Ok r /\ r !! n = Some v.
Proof.
  intros Ht Hnd Hin Hv. unfold init. rewrite Ht.
  destruct (sqlmodel_table_construct c data w) as [r w'] eqn:E.
  exists r. split; [done|]. change r with (r, w').1. rewrite <- E.
  by eapply construct_lookup_supplied.
Qed.

(** A field whose value passes its check is not among the errors. *)
Lemma valid_field_not_reported c data w n d v v' :
  NoDup (field_names c) -> lookup_field c n = Some d ->
  data !! n = Some v -> validate_value email_valid d v = Valid v' ->
  forall e, ~ fails_with (model_validate email_valid c data w).1 n e.
Proof.
  intros Hnd Hd Hv Hvalid e (d' & Hin & He)%fails_with_field_error.
  assert (d' = d) as -> by by eapply assoc_unique.
  unfold field_error in He. simpl in He. by rewrite Hv, Hvalid in He.
Qed.

Lemma init_not_table c data w :
  is_table c = false -> init email_valid c data w = model_validate email_valid c data w.
Proof. intros Ht. unfold init. by rewrite Ht. Qed.

End Facts.

(** Membership of a declaration in the computed fields of a class. *)
Ltac in_fields :=
  match goal with
  | |- _ ∈ model_fields ?c =>
      let l := eval vm_compute in (model_fields c) in
      change (model_fields c) with l;
      repeat first [apply list_elem_of_here | apply list_elem_of_further]
  end.

(** Unfolding of the check of one field, keeping the comparisons folded. *)
Ltac field_check :=
  unfold field_error, validate_value, validate_typed, check_length, check_int,
    check_float, float_le, float_ge;
  cbn -[Nat.ltb String.length Z.leb Qle_bool inject_Z].

(** Lookups in a mapping written out key by key. *)
Ltac map_lookups :=
  repeat first
    [ rewrite lookup_insert_eq
    | rewrite lookup_singleton_eq
    | rewrite lookup_empty
    | rewrite lookup_insert_ne by done
    | rewrite lookup_singleton_ne by done ].

(** One run of the validator or of the table constructor over the fields
    of a given class, field by field. *)
Ltac run_fields c :=
  unfold model_validate, sqlmodel_table_construct, validate_fields;
  let l := eval vm_compute in (model_fields c) in
  change (model_fields c) with l;
  cbn [foldl]; unfold validate_field, construct_field.

(** A decidable closed statement, by evaluation. *)
Ltac by_evaluation := apply (bool_decide_unpack _); vm_compute; exact I.

(** The field names of a given class are pairwise distinct. *)
Ltac names_nodup := by_evaluation.

(** A closed decidable hypothesis that evaluates to false. *)
Ltac absurd_by_evaluation H :=
  exfalso; apply (bool_decide_pack _) in H; vm_compute in H; exact H.





(** * The claims *)

Section Claims.

Variable email_valid : string -> bool.

(** C8.  An ItemUpdate built from no fields at all is accepted, with
    [title] and [description] both [None]; an ItemUpdate whose title is
    the empty string is rejected with a ValidationError that reports
    [title] as too short (minimum length 1), whatever else is supplied. *)
Theorem C8_item_update_partial (w : World) :
  init email_valid ItemUpdate ∅ w
    = (Ok {[ "title" := VNone; "description" := VNone ]}, w)
  /\ forall data : record,
       fails_with (init email_valid ItemUpdate (<["title" := VStr ""]> data) w).1
                  "title" string_too_short.
Proof.
  split; [by vm_compute|].
  intros data. rewrite init_not_table by done.
  eapply model_validate_fails_with; [in_fields|].
  unfold field_error. simpl. by rewrite lookup_insert_eq.
Qed.



(** C6.  Validating a Feedback ([model_validate]) rejects a rating below
    1 (not greater than or equal to 1) and a rating above 5 (not less
    than or equal to 5), and accepts every integer rating from 1 to 5,
    both bounds included.  The constructor of Feedback, a table class,
    validates nothing: it builds the instance for every rating and
    stores the rating it is given. *)
Theorem C6_feedback_rating (w : World) (data : record) (z : Z) :
  (z < 1 ->
     fails_with (model_validate email_valid Feedback (<["rating" := VInt z]> data) w).1
                "rating" greater_than_equal)
  /\ (5 < z ->
        fails_with (model_validate email_valid Feedback (<["rating" := VInt z]> data) w).1
                   "rating" less_than_equal)
  /\ (1 <= z <= 5 ->
        (forall e, ~ fails_with
                       (model_validate email_valid Feedback
                          (<["rating" := VInt z]> data) w).1 "rating" e)
        /\ forall u, is_ok (model_validate email_valid Feedback
                              {[ "order_id" := VUuid u; "rating" := VInt z ]} w).1 = true)
  /\ (exists r, (init email_valid Feedback (<["rating" := VInt z]> data) w).1 = Ok r
                /\ r !! "rating" = Some (VInt z)).
Proof.
  repeat apply conj.
  - intros Hz. eapply model_validate_fails_with; [in_fields|].
    field_check. rewrite lookup_insert_eq. field_check.
    assert (Z.leb z 5 = true) as -> by (apply Z.leb_le; lia).
    assert (Z.leb 1 z = false) as -> by (apply Z.leb_gt; lia). done.
  - intros Hz. eapply model_validate_fails_with; [in_fields|].
    field_check. rewrite lookup_insert_eq. field_check.
    assert (Z.leb z 5 = false) as -> by (apply Z.leb_gt; lia). done.
  - intros [H1 H5].
    assert (Z.leb z 5 = true) as E5 by (apply Z.leb_le; lia).
    assert (Z.leb 1 z = true) as E1 by (apply Z.leb_le; lia).
    split.
    + eapply valid_field_not_reported with (v' := VInt z);
        [names_nodup | by vm_compute | apply lookup_insert_eq |].
      field_check. by rewrite E5, E1.
    + intros u. run_fields Feedback. map_lookups. field_check. by rewrite E5, E1.
  - eapply init_table_stores; [done | names_nodup | in_fields | apply lookup_insert_eq].
Qed.


(** C5.  The enum-valued fields of the schema are Order.status,
    Vehicle.type, Delivery.status, Payment.payment_method and
    Payment.payment_status, and the five enums declare exactly the listed
    values.  For each of these fields, validation ([model_validate])
    rejects a string outside the declared set with an enum error and does
    not report a string inside it.  All five fields belong to table
    classes, whose constructor validates nothing and stores the value it
    is given. *)
Theorem C5_enum_fields (w : World) (data : record) :
  flat_map enum_fields all_classes
    = [(Order, "status", OrderStatus); (Vehicle, "type", VehicleType);
       (Delivery, "status", DeliveryStatus);
       (Payment, "payment_method", PaymentMethod);
       (Payment, "payment_status", PaymentStatus)]
  /\ enum_values OrderStatus
       = ["pending"; "confirmed"; "in_transit"; "delivered"; "cancelled"]
  /\ enum_values DeliveryStatus = ["assigned"; "in_transit"; "delivered"; "cancelled"]
  /\ enum_values PaymentStatus = ["pending"; "successful"; "failed"]
  /\ enum_values PaymentMethod = ["credit_card"; "paypal"; "crypto"; "bank_transfer"]
  /\ enum_values VehicleType = ["bike"; "car"; "truck"; "airplane"; "ship"]
  /\ forall c n e, (c, n, e) ∈ flat_map enum_fields all_classes ->
       (forall s, s ∉ enum_values e ->
          fails_with (model_validate email_valid c (<[n := VStr s]> data) w).1 n enum)
       /\ (forall s, s ∈ enum_values e ->
             forall err, ~ fails_with
                             (model_validate email_valid c (<[n := VStr s]> data) w).1
                             n err)
       /\ (forall v, exists r,
              (init email_valid c (<[n := v]> data) w).1 = Ok r /\ r !! n = Some v).
Proof.
  assert (flat_map enum_fields all_classes
          = [(Order, "status", OrderStatus); (Vehicle, "type", VehicleType);
             (Delivery, "status", DeliveryStatus);
             (Payment, "payment_method", PaymentMethod);
             (Payment, "payment_status", PaymentStatus)]) as Hall by by vm_compute.
  split; [done|]. do 5 (split; [done|]).
  intros c n e Hin. rewrite Hall in Hin.
  rewrite !elem_of_cons, elem_of_nil in Hin.
  assert (is_table c = true /\ NoDup (field_names c)
          /\ lookup_field c n = Some (mkFieldDecl (Ann (TEnum e)) NoValue)) as (Ht & Hnd & Hd).
  { destruct Hin as [Hin|[Hin|[Hin|[Hin|[Hin|[]]]]]]; inversion Hin; subst;
      (split; [done|split; [names_nodup|by vm_compute]]). }
  clear Hin. repeat apply conj.
  - intros s Hs. eapply model_validate_fails_with; [by apply assoc_elem_of|].
    field_check. rewrite lookup_insert_eq. field_check.
    by rewrite bool_decide_eq_false_2.
  - intros s Hs. eapply valid_field_not_reported with (v' := VStr s);
      [done | done | apply lookup_insert_eq |].
    field_check. by rewrite bool_decide_eq_true_2.
  - intros v. eapply init_table_stores;
      [done | done | by apply assoc_elem_of | apply lookup_insert_eq].
Qed.

(** C10.  The classes deriving from UserBase are UserBase, UserCreate,
    UserUpdate, User and UserPublic; an instance of any of them built
    without [is_active] holds [is_active = True], and one built without
    [is_superuser] holds [is_superuser = False].  A Vehicle built without
    [is_available] holds [is_available = True], and a Driver built
    without [availability] holds [availability = True]. *)
Theorem C10_defaults (w w' : World) (data r : record) (c : ModelClass) :
  (class_name <$> filter (fun k => "UserBase" ∈ ancestors k) all_classes)
    = ["UserBase"; "UserCreate"; "UserUpdate"; "User"; "UserPublic"]
  /\ (c ∈ all_classes -> "UserBase" ∈ ancestors c ->
        init email_valid c data w = (Ok r, w') ->
        (data !! "is_active" = None -> r !! "is_active" = Some (VBool true))
        /\ (data !! "is_superuser" = None -> r !! "is_superuser" = Some (VBool false)))
  /\ (init email_valid Vehicle data w = (Ok r, w') ->
        data !! "is_available" = None -> r !! "is_available" = Some (VBool true))
  /\ (init email_valid Driver data w = (Ok r, w') ->
        data !! "availability" = None -> r !! "availability" = Some (VBool true)).
Proof.
  repeat apply conj.
  - by vm_compute.
  - intros Hc Hanc Hinit.
    assert (NoDup (field_names c)
            /\ lookup_field c "is_active" = Some (mkFieldDecl (Ann Tbool) (Assign (VBool true)))
            /\ lookup_field c "is_superuser"
                 = Some (mkFieldDecl (Ann Tbool) (Assign (VBool false)))) as (Hnd & Ha & Hs).
    { unfold all_classes in Hc. rewrite !elem_of_cons, elem_of_nil in Hc.
      repeat (destruct Hc as [->|Hc]); try done;
        first [ absurd_by_evaluation Hanc
              | split; [names_nodup|split; by vm_compute] ]. }
    split; intros Hnone.
    + eapply init_lookup_default; [done | by apply assoc_elem_of | done.. ].
    + eapply init_lookup_default; [done | by apply assoc_elem_of | done.. ].
  - intros Hinit Hnone.
    eapply init_lookup_default with (c := Vehicle); [names_nodup | in_fields | done.. ].
  - intros Hinit Hnone.
    eapply init_lookup_default with (c := Driver); [names_nodup | in_fields | done.. ].
Qed.

(** C4.  UserPublic declares no [hashed_password] field: its fields are
    those of UserBase and [id].  The public projection of a user (the
    user's attributes validated as a UserPublic) never holds a
    [hashed_password], and two users that agree on [id] and on every
    UserBase field have the same projection, whatever their hashed
    passwords. *)
Theorem C4_public_hides_password (w : World) (u1 u2 : record) :
  (field_names UserPublic = app (field_names UserBase) ["id"])
  /\ ("hashed_password" ∉ field_names UserPublic)
  /\ (forall r w', model_validate email_valid UserPublic u1 w = (Ok r, w') ->
         r !! "hashed_password" = None)
  /\ ((forall n, n ∈ "id" :: field_names UserBase -> u1 !! n = u2 !! n) ->
        model_validate email_valid UserPublic u1 w
        = model_validate email_valid UserPublic u2 w).
Proof.
  assert ("hashed_password" ∉ field_names UserPublic) as Hnot.
  { by_evaluation. }
  repeat apply conj; [by vm_compute | done | |].
  - intros r w' ->%model_validate_record. by apply validate_lookup_nonfield.
  - intros Hag. unfold model_validate.
    rewrite (validate_fields_agree email_valid (model_fields UserPublic) u1 u2); [done|].
    intros n Hn. apply Hag. revert Hn. clear.
    let l := eval vm_compute in (field_names UserPublic) in
    change ((model_fields UserPublic).*1) with l.
    let l := eval vm_compute in (field_names UserBase) in
    change (field_names UserBase) with l.
    rewrite !elem_of_cons, !elem_of_nil. tauto.
Qed.

(** C3.  Of the twelve table classes, DeliveryCompany, Order, Vehicle,
    Driver, Payment, Feedback and Promotion declare [created_at], and
    DeliveryCompany, Order, Vehicle, Driver and Promotion declare
    [updated_at]; User, Item, Address, PackageItem and Delivery declare
    neither.  Where declared and not supplied, [created_at] and
    [updated_at] hold a reading of the clock taken during the
    construction.  An update that changes some column and does not assign
    [updated_at] itself sets [updated_at] to the clock reading of the
    update and leaves an unassigned [created_at] as it was; a flush with
    no changed column leaves the row as it is. *)
Theorem C3_timestamps (w : World) (data changes row : record) (c : ModelClass) :
  (class_name <$> filter (fun k => "created_at" ∈ field_names k) tables)
    = ["DeliveryCompany"; "Order"; "Vehicle"; "Driver"; "Payment"; "Feedback";
       "Promotion"]
  /\ (class_name <$> filter (fun k => "updated_at" ∈ field_names k) tables)
       = ["DeliveryCompany"; "Order"; "Vehicle"; "Driver"; "Promotion"]
  /\ (forall n, n = "created_at" \/ n = "updated_at" ->
       c ∈ tables -> n ∈ field_names c -> data !! n = None ->
       exists r w' k,
         init email_valid c data w = (Ok r, w')
         /\ r !! n = Some (VDatetime (clock w k))
         /\ (clock_calls w <= k < clock_calls w')%nat)
  /\ (c ∈ tables -> "updated_at" ∈ field_names c ->
        changes ≠ ∅ -> changes !! "updated_at" = None ->
        (flush_update c changes row w).1 !! "updated_at"
          = Some (VDatetime (clock w (clock_calls w)))
        /\ clock_calls (flush_update c changes row w).2 = Datatypes.S (clock_calls w)
        /\ (changes !! "created_at" = None ->
              (flush_update c changes row w).1 !! "created_at" = row !! "created_at"))
  /\ flush_update c ∅ row w = (row, w).
Proof.
  repeat apply conj.
  - by vm_compute.
  - by vm_compute.
  - intros n Hn Hc Hin Hnone.
    assert (is_table c = true /\ NoDup (field_names c)
            /\ exists d, lookup_field c n = Some d
                         /\ field_default d = DefaultFactory utcnow) as (Ht & Hnd & d & Hd & Hdef).
    { unfold tables in Hc. rewrite !elem_of_cons, elem_of_nil in Hc.
      destruct Hn as [-> | ->];
        repeat (destruct Hc as [->|Hc]); try done;
        first [ absurd_by_evaluation Hin
              | split; [done|split; [names_nodup|eexists; split; by vm_compute]] ]. }
    destruct (construct_lookup_utcnow c data w n d Hnd (assoc_elem_of _ _ _ Hd) Hnone Hdef)
      as (k & Hk & Hrange).
    exists (sqlmodel_table_construct c data w).1, (sqlmodel_table_construct c data w).2, k.
    split; [|done]. unfold init. rewrite Ht.
    by destruct (sqlmodel_table_construct c data w).
  - intros Hc Hin Hne Hnone.
    assert (onupdate_columns c = [("updated_at", utcnow)]) as Hcols.
    { unfold tables in Hc. rewrite !elem_of_cons, elem_of_nil in Hc.
      repeat (destruct Hc as [->|Hc]); try done;
        first [ absurd_by_evaluation Hin | by vm_compute ]. }
    unfold flush_update. rewrite decide_False, Hcols by done.
    simpl. rewrite Hnone. simpl. rewrite lookup_insert_eq.
    split; [done|]. split; [done|]. intros Hcreated.
    rewrite lookup_insert_ne by done. by rewrite lookup_union_r.
  - unfold flush_update. by rewrite decide_True.
Qed.

End Claims.

(** ** The delete cascade *)

Lemma delete_cascade_mono fuel store gone x k :
  k ∈ gone -> k ∈ delete_cascade fuel store gone x.
Proof.
  revert gone x. induction fuel as [|fuel IH]; intros gone x Hk; simpl; [done|].
  case_bool_decide; [done|].
  assert (forall ys g, k ∈ g -> k ∈ foldl (delete_cascade fuel store) g ys) as Hfold.
  { induction ys as [|y ys IHys]; intros g Hg; simpl; [done|]. apply IHys. by apply IH. }
  apply Hfold. by apply list_elem_of_further.
Qed.

Lemma foldl_delete_cascade_mono fuel store ys gone k :
  k ∈ gone -> k ∈ foldl (delete_cascade fuel store) gone ys.
Proof.
  revert gone. induction ys as [|y ys IH]; intros gone Hk; simpl; [done|].
  apply IH. by apply delete_cascade_mono.
Qed.

(** With fuel left, a visited row is marked. *)
Lemma delete_cascade_marks fuel store gone x :
  key x ∈ delete_cascade (Datatypes.S fuel) store gone x.
Proof.
  simpl. case_bool_decide; [done|].
  apply foldl_delete_cascade_mono. apply list_elem_of_here.
Qed.

Lemma foldl_delete_cascade_marks fuel store ys gone y :
  y ∈ ys -> key y ∈ foldl (delete_cascade (Datatypes.S fuel) store) gone ys.
Proof.
  revert gone. induction ys as [|y' ys IH]; intros gone Hy; [by apply elem_of_nil in Hy|].
  apply elem_of_cons in Hy as [->|Hy]; cbn [foldl].
  - apply foldl_delete_cascade_mono. apply delete_cascade_marks.
  - by apply IH.
Qed.

Lemma delete_cascade_S fuel store gone x :
  delete_cascade (Datatypes.S fuel) store gone x
  = if bool_decide (key x ∈ gone) then gone
    else foldl (delete_cascade fuel store) (key x :: gone) (cascade_targets store x).
Proof. reflexivity. Qed.

(** *** The fuel of [deleted_with] is enough *)

Lemma pending_mono store gone gone' :
  (forall k, k ∈ gone -> k ∈ gone') -> (pending store gone' <= pending store gone)%nat.
Proof.
  intros Hsub. unfold pending. induction store as [|y store IH]; simpl; [done|].
  destruct (bool_decide (key y ∈ gone)) eqn:E.
  - apply bool_decide_eq_true in E. rewrite bool_decide_eq_true_2 by by apply Hsub.
    done.
  - simpl. destruct (negb (bool_decide (key y ∈ gone'))); simpl; lia.
Qed.

Lemma pending_lt store gone x :
  x ∈ store -> key x ∉ gone -> (pending store (key x :: gone) < pending store gone)%nat.
Proof.
  intros Hx Hnew. unfold pending. induction store as [|y store IH]; simpl.
  - by apply elem_of_nil in Hx.
  - assert (length (List.filter (fun y => negb (bool_decide (key y ∈ key x :: gone))) store)
            <= length (List.filter (fun y => negb (bool_decide (key y ∈ gone))) store))%nat
      as Hle.
    { apply (pending_mono store gone (key x :: gone)). intros k Hk.
      by apply list_elem_of_further. }
    apply elem_of_cons in Hx as [<-|Hx].
    + rewrite bool_decide_eq_true_2 by apply list_elem_of_here.
      rewrite bool_decide_eq_false_2 by done. simpl. lia.
    + specialize (IH Hx).
      destruct (bool_decide (key y ∈ gone)) eqn:E.
      * apply bool_decide_eq_true in E.
        rewrite bool_decide_eq_true_2 by by apply list_elem_of_further. done.
      * simpl. destruct (negb (bool_decide (key y ∈ key x :: gone))); simpl; lia.
Qed.

Lemma pending_le_length store gone : (pending store gone <= length store)%nat.
Proof. unfold pending. apply filter_length_le. Qed.

(** The rows a deletion cascades to are rows of the store. *)
Lemma cascade_targets_in_store store x y :
  y ∈ cascade_targets store x -> y ∈ store.
Proof.
  unfold cascade_targets. rewrite list_elem_of_In, in_flat_map.
  intros (nr & _ & Hy). destruct (cascades_delete nr.2); [|done].
  unfold related in Hy. apply list_elem_of_In.
  destruct (rel_foreign_keys _ _ _) as [|col cols].
  - destruct (uuid_at (attrs x) "id"); [|done]. by apply filter_In in Hy as [Hy _].
  - destruct (uuid_at (attrs x) col); [|done]. by apply filter_In in Hy as [Hy _].
Qed.

Lemma foldl_delete_cascade_stable store m f1 f2 :
  (forall gone y, y ∈ store -> (pending store gone <= m)%nat ->
     delete_cascade f1 store gone y = delete_cascade f2 store gone y) ->
  forall ys gone, (forall y, y ∈ ys -> y ∈ store) -> (pending store gone <= m)%nat ->
    foldl (delete_cascade f1 store) gone ys = foldl (delete_cascade f2 store) gone ys.
Proof.
  intros Hstep. induction ys as [|y ys IH]; intros gone Hys Hm; simpl; [done|].
  rewrite Hstep; [|apply Hys, list_elem_of_here|done].
  apply IH.
  - intros y' Hy'. by apply Hys, list_elem_of_further.
  - etrans; [|exact Hm]. apply pending_mono. intros k Hk. by apply delete_cascade_mono.
Qed.

(** Past the number of pending rows, more fuel changes nothing. *)
Lemma delete_cascade_stable store m :
  forall f1 f2 gone y,
    y ∈ store -> (pending store gone <= m)%nat -> (m < f1)%nat -> (m < f2)%nat ->
    delete_cascade f1 store gone y = delete_cascade f2 store gone y.
Proof.
  induction m as [|m IH]; intros f1 f2 gone y Hy Hm H1 H2;
    destruct f1 as [|f1]; [lia| |lia|]; (destruct f2 as [|f2]; [lia|]); simpl;
    case_bool_decide as Hgone; try done.
  - pose proof (pending_lt store gone y Hy Hgone). lia.
  - apply (foldl_delete_cascade_stable store m).
    + intros g z Hz Hg. apply IH; [done | done | lia | lia].
    + intros z Hz. by eapply cascade_targets_in_store.
    + pose proof (pending_lt store gone y Hy Hgone). lia.
Qed.

(** [deleted_with] is what any larger fuel gives: the deletion of a row
    always comes to an end with this result. *)
Lemma deleted_with_fuel store x fuel :
  (2 + length store <= fuel)%nat -> delete_cascade fuel store [] x = deleted_with store x.
Proof.
  intros Hfuel. unfold deleted_with.
  destruct fuel as [|fuel]; [lia|].
  change (2 + length store)%nat with (Datatypes.S (Datatypes.S (length store))).
  rewrite (delete_cascade_S fuel), (delete_cascade_S (Datatypes.S (length store))).
  rewrite bool_decide_eq_false_2 by by intros ?%elem_of_nil.
  apply (foldl_delete_cascade_stable store (length store)).
  - intros g z Hz Hg. apply (delete_cascade_stable store (length store)); [done|done|lia|lia].
  - intros z Hz. by eapply cascade_targets_in_store.
  - apply pending_le_length.
Qed.


Lemma deleted_with_targets store x y :
  y ∈ cascade_targets store x -> key y ∈ deleted_with store x.
Proof.
  intros Hy. unfold deleted_with.
  change (2 + length store)%nat with (Datatypes.S (Datatypes.S (length store))).
  rewrite delete_cascade_S, bool_decide_eq_false_2 by by intros ?%elem_of_nil.
  by apply foldl_delete_cascade_marks.
Qed.



(** Deleting a User deletes the Items it owns. *)
Lemma delete_user_deletes_items store u it id :
  row_class u = User -> uuid_at (attrs u) "id" = Some id ->
  it ∈ store -> row_class it = Item -> uuid_at (attrs it) "owner_id" = Some id ->
  key it ∈ deleted_with store u.
Proof.
  intros Hu Hid Hin Hit Hown. apply deleted_with_targets.
  unfold cascade_targets. rewrite Hu.
  let l := eval vm_compute in (relationships User) in change (relationships User) with l.
  cbn [flat_map]. rewrite app_nil_r.
  replace (cascades_delete _) with true by by vm_compute.
  unfold related. rewrite Hu.
  replace (rel_foreign_keys _ _ _) with (@nil string) by by vm_compute.
  rewrite Hid. apply list_elem_of_In, filter_In. split; [by apply list_elem_of_In|].
  rewrite Hit.
  replace (foreign_key_columns Item (tablename User)) with ["owner_id"] by by vm_compute.
  simpl. rewrite Hown. simpl. by rewrite N.eqb_refl.
Qed.


(** C2.  Three relationships declare a delete cascade, not two: User.items,
    Order.package_items and also PackageItem.order.  In a store holding an
    address, an order with two package items, and a user with two items,
    deleting one package item deletes the order it belongs to and the
    order's other package item as well; deleting one item deletes that
    item alone, its owner declaring the cascade on the parent side only. *)
Theorem C2_package_item_cascade :
  flat_map cascade_delete_relationships all_classes
    = [("User", "items"); ("PackageItem", "order"); ("Order", "package_items")]
  /\ session_delete sample_store package21 = [address1; user5; item31; item32]
  /\ session_delete sample_store item31
       = [address1; order10; package21; package22; user5; item32].
Proof. repeat apply conj; by vm_compute. Qed.

(** * The claims at sample inputs *)

(** Membership in a list of classes written out. *)
Ltac in_classes :=
  unfold tables, all_classes;
  repeat first [apply list_elem_of_here | apply list_elem_of_further].



(** C3, contrary case: Delivery declares neither timestamp and Payment no
    [updated_at]; a Delivery just built holds neither. *)
Lemma C3_counterexample :
  ("created_at" ∉ field_names Delivery)
  /\ ("updated_at" ∉ field_names Delivery)
  /\ ("updated_at" ∉ field_names Payment)
  /\ exists r, (init only_example_org Delivery ∅ w0).1 = Ok r
               /\ r !! "created_at" = None /\ r !! "updated_at" = None.
Proof.
  repeat apply conj; try by_evaluation.
  eexists. repeat apply conj; [by vm_compute | by vm_compute..].
Qed.

(** C3 at a sample input: an Order built from nothing, and an update of
    its status. *)
Lemma C3_witness :
  (exists r w' k,
     init only_example_org Order ∅ w0 = (Ok r, w')
     /\ r !! "created_at" = Some (VDatetime (clock w0 k))
     /\ (clock_calls w0 <= k < clock_calls w')%nat)
  /\ (flush_update Order {[ "status" := VStr "confirmed" ]} (attrs order10) w0).1
       !! "updated_at" = Some (VDatetime (clock w0 (clock_calls w0))).
Proof.
  pose proof (C3_timestamps only_example_org w0 ∅ {[ "status" := VStr "confirmed" ]}
                (attrs order10) Order) as (_ & _ & Hnew & Hupd & _).
  split.
  - apply (Hnew "created_at"); [by left | in_classes | by_evaluation | apply lookup_empty].
  - apply Hupd; [in_classes | by_evaluation | apply map_non_empty_singleton | done].
Defined.

(** C4 at a sample input: two users that differ in their hashed password
    only have the same projection, and it is a valid UserPublic. *)
Lemma C4_witness :
  model_validate only_example_org UserPublic
    {[ "id" := VUuid 5; "email" := VStr "ann@example.org";
       "hashed_password" := VStr "$2b$12$abc" ]} w0
  = model_validate only_example_org UserPublic
      {[ "id" := VUuid 5; "email" := VStr "ann@example.org";
         "hashed_password" := VStr "$2b$12$xyz" ]} w0
  /\ is_ok (model_validate only_example_org UserPublic
              {[ "id" := VUuid 5; "email" := VStr "ann@example.org";
                 "hashed_password" := VStr "$2b$12$abc" ]} w0).1 = true.
Proof.
  split; [|by vm_compute].
  apply (C4_public_hides_password only_example_org w0).
  intros n Hn. revert Hn.
  let l := eval vm_compute in (field_names UserBase) in
  change (field_names UserBase) with l.
  rewrite !elem_of_cons, elem_of_nil.
  intros [->|[->|[->|[->|[->|[]]]]]]; by vm_compute.
Defined.

(** C5, contrary case: an Order whose status is outside OrderStatus is
    built without a ValidationError. *)
Lemma C5_counterexample :
  ~ (exists errs,
       (init only_example_org Order {[ "status" := VStr "shipped" ]} w0).1
       = ValidationError errs).
Proof. intros [errs H]; vm_compute in H; discriminate H. Qed.

(** C5 at sample inputs: an unknown and a known status of an Order. *)
Lemma C5_witness :
  fails_with (model_validate only_example_org Order
                (<["status" := VStr "shipped"]> ∅) w0).1 "status" enum
  /\ (forall err, ~ fails_with
                      (model_validate only_example_org Order
                         (<["status" := VStr "pending"]> ∅) w0).1 "status" err).
Proof.
  pose proof (C5_enum_fields only_example_org w0 ∅) as (_ & _ & _ & _ & _ & _ & H).
  destruct (H Order "status" OrderStatus) as (Hout & Hin & _).
  { vm_compute. apply list_elem_of_here. }
  split; [apply Hout; by_evaluation | apply Hin; by_evaluation].
Defined.

(** C6, contrary case: a Feedback with rating 0, and one with rating 6, is
    built without a ValidationError. *)
Lemma C6_counterexample :
  ~ (exists errs,
       (init only_example_org Feedback
          {[ "order_id" := VUuid 10; "rating" := VInt 0 ]} w0).1 = ValidationError errs)
  /\ ~ (exists errs,
          (init only_example_org Feedback
             {[ "order_id" := VUuid 10; "rating" := VInt 6 ]} w0).1 = ValidationError errs).
Proof. split; intros [errs H]; vm_compute in H; discriminate H. Qed.

(** C6 at the ratings 0, 6, 1 and 5. *)
Lemma C6_witness :
  fails_with (model_validate only_example_org Feedback (<["rating" := VInt 0]> ∅) w0).1
             "rating" greater_than_equal
  /\ fails_with (model_validate only_example_org Feedback (<["rating" := VInt 6]> ∅) w0).1
                "rating" less_than_equal
  /\ is_ok (model_validate only_example_org Feedback
              {[ "order_id" := VUuid 10; "rating" := VInt 1 ]} w0).1 = true
  /\ is_ok (model_validate only_example_org Feedback
              {[ "order_id" := VUuid 10; "rating" := VInt 5 ]} w0).1 = true.
Proof.
  pose proof (C6_feedback_rating only_example_org w0 ∅ 0) as (Hlow & _).
  pose proof (C6_feedback_rating only_example_org w0 ∅ 6) as (_ & Hhigh & _).
  pose proof (C6_feedback_rating only_example_org w0 ∅ 1) as (_ & _ & Hone & _).
  pose proof (C6_feedback_rating only_example_org w0 ∅ 5) as (_ & _ & Hfive & _).
  split; [exact (Hlow ltac:(lia))|]. split; [exact (Hhigh ltac:(lia))|].
  split; [exact (proj2 (Hone ltac:(lia)) 10%N) | exact (proj2 (Hfive ltac:(lia)) 10%N)].
Defined.




(** C10 at sample inputs: a User, a Vehicle and a Driver built from nothing. *)
Lemma C10_witness :
  (exists r w', init only_example_org User ∅ w0 = (Ok r, w')
                /\ r !! "is_active" = Some (VBool true)
                /\ r !! "is_superuser" = Some (VBool false))
  /\ (exists r w', init only_example_org Vehicle ∅ w0 = (Ok r, w')
                   /\ r !! "is_available" = Some (VBool true))
  /\ (exists r w', init only_example_org Driver ∅ w0 = (Ok r, w')
                   /\ r !! "availability" = Some (VBool true)).
Proof.
  assert (forall c, is_table c = true ->
            exists r w', init only_example_org c ∅ w0 = (Ok r, w')) as Hbuilt.
  { intros c Ht. unfold init. rewrite Ht.
    destruct (sqlmodel_table_construct c ∅ w0) as [r w']. by exists r, w'. }
  repeat apply conj.
  - destruct (Hbuilt User eq_refl) as (r & w' & Hinit). exists r, w'.
    destruct (C10_defaults only_example_org w0 w' ∅ r User) as (_ & H & _).
    destruct H as [Ha Hs]; [in_classes | by_evaluation | done |].
    split; [done|]. split; [apply Ha | apply Hs]; apply lookup_empty.
  - destruct (Hbuilt Vehicle eq_refl) as (r & w' & Hinit). exists r, w'.
    destruct (C10_defaults only_example_org w0 w' ∅ r User) as (_ & _ & H & _).
    split; [done|]. apply H; [done | apply lookup_empty].
  - destruct (Hbuilt Driver eq_refl) as (r & w' & Hinit). exists r, w'.
    destruct (C10_defaults only_example_org w0 w' ∅ r User) as (_ & _ & _ & H).
    split; [done|]. apply H; [done | apply lookup_empty].
Defined.

(** * Beyond the claims: the schema as a whole *)

(** ** Field names *)

Lemma set_field_names n d fs :
  (set_field n d fs).*1 = if decide (n ∈ fs.*1) then fs.*1 else (fs.*1 ++ [n])%list.
Proof.
  induction fs as [|[n' d'] fs IH]; [done|]. cbn [set_field].
  destruct (decide (n = n')) as [->|Hne]; rewrite !fmap_cons; cbn [fst].
  - rewrite decide_True by apply list_elem_of_here. done.
  - rewrite IH. destruct (decide (n ∈ fs.*1)) as [Hin|Hnin].
    + rewrite decide_True by by apply list_elem_of_further. done.
    + rewrite decide_False; [done|]. by intros [?|?]%elem_of_cons.
Qed.

Lemma set_field_nodup n d fs : NoDup fs.*1 -> NoDup (set_field n d fs).*1.
Proof.
  intros Hnd. rewrite set_field_names. case_decide as Hin; [done|].
  apply NoDup_app. split; [done|]. split; [|apply NoDup_singleton].
  intros x Hx ->%list_elem_of_singleton. done.
Qed.

Lemma foldl_set_field_nodup own fs :
  NoDup fs.*1 -> NoDup (foldl (fun acc nd => set_field nd.1 nd.2 acc) fs own).*1.
Proof.
  revert fs. induction own as [|nd own IH]; intros fs Hnd; simpl; [done|].
  apply IH. by apply set_field_nodup.
Qed.

(** Whatever the class and its bases, no field name occurs twice. *)
Lemma model_fields_nodup : forall c, NoDup (field_names c).
Proof.
  fix IH 1. intros [name [b|] t body]; unfold field_names; simpl.
  - apply foldl_set_field_nodup, IH.
  - apply foldl_set_field_nodup. simpl. apply NoDup_nil_2.
Qed.

(** ** Length bounds *)





(** ** What a successful validation leaves *)

Section Validated.

Variable email_valid : string -> bool.

Lemma check_length_valid kw s v : check_length kw s = Valid v -> v = VStr s.
Proof.
  unfold check_length. repeat case_match; congruence.
Qed.

Lemma check_int_valid kw z v : check_int kw z = Valid v -> v = VInt z.
Proof.
  unfold check_int. repeat case_match; congruence.
Qed.

Lemma check_float_valid kw x v : check_float kw x = Valid v -> v = VFloat x.
Proof.
  unfold check_float. repeat case_match; congruence.
Qed.

(** A value that passed the check of a field passes it again, unchanged. *)
Lemma validate_value_idem d v v' :
  validate_value email_valid d v = Valid v' -> validate_value email_valid d v' = Valid v'.
Proof.
  unfold validate_value.
  destruct (annotation d) as [t|t], t, v; cbn [validate_typed]; try done;
    intros H;
    try (pose proof (check_length_valid _ _ _ H) as ->; cbn [validate_typed]; exact H);
    try (pose proof (check_int_valid _ _ _ H) as ->; cbn [validate_typed]; exact H);
    try (pose proof (check_float_valid _ _ _ H) as ->; cbn [validate_typed]; exact H);
    try (injection H as <-; done).
  all: try (destruct (check_length (kwargs (rhs d)) s) as [x|] eqn:E; [|done];
            destruct (email_valid s) eqn:Ee; [|done]; injection H as <-;
            cbn [validate_typed]; by rewrite E, Ee).
  all: try (case_bool_decide as Hs; [|done]; injection H as <-;
            cbn [validate_typed]; by rewrite bool_decide_eq_true_2).
Qed.

(** No check of a value reports the field as missing. *)
Lemma validate_value_not_missing d v : validate_value email_valid d v ≠ Invalid missing.
Proof.
  unfold validate_value, validate_typed, check_length, check_int, check_float.
  repeat case_match; congruence.
Qed.

Lemma model_validate_ok_iff c data w :
  is_ok (model_validate email_valid c data w).1 = true
  <-> Forall (fun nd => field_error email_valid data nd = None) (model_fields c).
Proof.
  split; [|apply model_validate_ok].
  rewrite model_validate_errors.
  destruct (omap _ _) as [|x l] eqn:E; [|done]. intros _.
  apply Forall_forall. intros nd Hnd.
  destruct (field_error email_valid data nd) as [e|] eqn:Ee; [|done].
  assert (e ∈ omap (field_error email_valid data) (model_fields c)) as Hin.
  { apply list_elem_of_omap. by exists nd. }
  rewrite E in Hin. by apply elem_of_nil in Hin.
Qed.

(** After a successful validation every field holds a value that passes
    the field's own check, provided the declared defaults do. *)
Lemma validated_record c data w r w' :
  (forall n d, (n, d) ∈ model_fields c -> default_fits email_valid d) ->
  model_validate email_valid c data w = (Ok r, w') ->
  forall n d, (n, d) ∈ model_fields c ->
    exists v, r !! n = Some v /\ validate_value email_valid d v = Valid v.
Proof.
  intros Hfit Hmv n d Hin.
  assert (is_ok (model_validate email_valid c data w).1 = true) as Hok by by rewrite Hmv.
  apply model_validate_ok_iff in Hok. rewrite Forall_forall in Hok.
  specialize (Hok (n, d) Hin). unfold field_error in Hok. cbn [fst snd] in Hok.
  apply model_validate_record in Hmv as ->.
  destruct (validate_lookup email_valid c data w n d (model_fields_nodup c) Hin)
    as ([[r1 e1] w1] & ->).
  unfold validate_field. specialize (Hfit n d Hin). unfold default_fits in Hfit.
  destruct (data !! n) as [v|].
  - destruct (validate_value email_valid d v) as [v'|] eqn:Ev; [|done].
    cbn [fst]. exists v'. rewrite lookup_insert_eq. split; [done|].
    by eapply validate_value_idem.
  - destruct (field_default d) as [|v|f]; [done| |].
    + cbn [fst]. exists v. by rewrite lookup_insert_eq.
    + specialize (Hfit w1). destruct (call f w1) as [v w2]. cbn [fst] in *.
      exists v. by rewrite lookup_insert_eq.
Qed.


(** The declared defaults of the module fit their fields. *)
Lemma all_defaults_fit c n d :
  c ∈ all_classes -> (n, d) ∈ model_fields c -> default_fits email_valid d.
Proof.
  intros Hc Hin. unfold all_classes in Hc. rewrite !elem_of_cons, elem_of_nil in Hc.
  repeat (destruct Hc as [->|Hc]); [..|done];
    match type of Hin with
    | _ ∈ model_fields ?k =>
        let l := eval vm_compute in (model_fields k) in
        change (model_fields k) with l in Hin
    end;
    rewrite !elem_of_cons, elem_of_nil in Hin;
    repeat (destruct Hin as [Hin|Hin];
            [injection Hin as -> ->; unfold default_fits; cbn; done|]);
    done.
Qed.



End Validated.

(** ** What a construction draws from the world *)

Lemma construct_field_draws (data : record) (r : record) (w : World) nd :
  uuid_calls (construct_field data (r, w) nd).2
    = (uuid_calls w + if draws_of uuid4 data nd then 1 else 0)%nat
  /\ clock_calls (construct_field data (r, w) nd).2
      = (clock_calls w + if draws_of utcnow data nd then 1 else 0)%nat.
Proof.
  destruct nd as [n d]. unfold construct_field, draws_of. cbn [fst snd].
  destruct (data !! n) as [v|].
  - destruct (field_default d) as [|v'|f]; cbn [snd]; rewrite ?andb_false_r; lia.
  - destruct (field_default d) as [|v'|[]]; cbn; lia.
Qed.

Lemma construct_draws (data : record) fs (r : record) (w : World) :
  uuid_calls (foldl (construct_field data) (r, w) fs).2
    = (uuid_calls w + draws uuid4 data fs)%nat
  /\ clock_calls (foldl (construct_field data) (r, w) fs).2
      = (clock_calls w + draws utcnow data fs)%nat.
Proof.
  revert r w. induction fs as [|nd fs IH]; intros r w.
  - unfold draws. simpl. lia.
  - cbn [foldl]. pose proof (construct_field_draws data r w nd) as [Hu Hc].
    destruct (construct_field data (r, w) nd) as [r1 w1]. cbn [snd] in *.
    destruct (IH r1 w1) as [IHu IHc]. rewrite IHu, IHc, Hu, Hc.
    unfold draws. cbn [List.filter].
    destruct (draws_of uuid4 data nd), (draws_of utcnow data nd); simpl; lia.
Qed.

Section Extras.

Variable email_valid : string -> bool.




(** X4.  Validation reports a field as missing exactly when the field is
    declared without a default and the input has no value under its
    name. *)
Theorem X4_missing_iff_required (c : ModelClass) (n : string) (data : record) (w : World) :
  fails_with (model_validate email_valid c data w).1 n missing
  <-> data !! n = None
      /\ exists d, lookup_field c n = Some d /\ field_default d = Required.
Proof.
  split.
  - intros (d & Hin & He)%fails_with_field_error.
    unfold field_error in He. cbn [fst snd] in He.
    destruct (data !! n) as [v|].
    + destruct (validate_value email_valid d v) as [|e] eqn:Ev; [done|].
      injection He as ->. by apply validate_value_not_missing in Ev.
    + split; [done|]. exists d. split.
      * unfold lookup_field. destruct (assoc n (model_fields c)) as [d0|] eqn:Ea.
        -- f_equal. symmetry. by eapply assoc_unique; [apply model_fields_nodup|..].
        -- exfalso. clear He. induction (model_fields c) as [|[k x] l IH];
             [by apply elem_of_nil in Hin|].
           simpl in Ea. destruct (decide (k = n)) as [->|Hne]; [done|].
           apply elem_of_cons in Hin as [Heq|Hin]; [congruence|by apply IH].
      * by destruct (field_default d).
  - intros (Hnone & d & Hd & Hreq).
    eapply model_validate_fails_with; [by apply assoc_elem_of|].
    unfold field_error. cbn [fst snd]. by rewrite Hnone, Hreq.
Qed.



(** X7.  A validated Item can be returned as an ItemPublic exactly when
    its title is not the empty string: Item accepts the empty title, and
    ItemPublic, which keeps the minimum length of ItemBase, does not. *)
Theorem X7_item_public_projection (data it : record) (w w' w2 : World) :
  model_validate email_valid Item data w = (Ok it, w') ->
  (is_ok (model_validate email_valid ItemPublic it w2).1 = true
   <-> it !! "title" ≠ Some (VStr ""))
  /\ (it !! "title" = Some (VStr "") ->
      fails_with (model_validate email_valid ItemPublic it w2).1 "title" string_too_short).
Proof.
  intros Hmv.
  assert (Item ∈ all_classes) as Hc
      by (unfold all_classes; repeat first [apply list_elem_of_here | apply list_elem_of_further]).
  pose proof (validated_record email_valid Item data w it w'
                (fun n d => all_defaults_fit email_valid Item n d Hc) Hmv) as Hrec.
  destruct (Hrec "title" (mkFieldDecl (Ann Tstr) (Field [Kw.max_length 255])))
    as (vt & Ht & Hvt); [in_fields|].
  destruct (Hrec "description"
              (mkFieldDecl (OrNone Tstr) (Field [Kw.default VNone; Kw.max_length 255])))
    as (vd & Hd & Hvd); [in_fields|].
  destruct (Hrec "id"
              (mkFieldDecl (Ann TUUID) (Field [Kw.default_factory uuid4; Kw.primary_key true])))
    as (vi & Hi & Hvi); [in_fields|].
  destruct (Hrec "owner_id"
              (mkFieldDecl (Ann TUUID) (Field [Kw.foreign_key "user.id"; Kw.nullable false])))
    as (vo & Ho & Hvo); [in_fields|].
  assert (exists s, vt = VStr s /\ Nat.ltb 255 (String.length s) = false) as (s & -> & Hs).
  { revert Hvt. field_check. destruct vt; try done.
    destruct (Nat.ltb 255 (String.length s)) eqn:E; [done|]. intros _. by exists s. }
  split; [split|].
  - intros Hok Htitle. apply model_validate_ok_iff in Hok. rewrite Forall_forall in Hok.
    assert (("title", mkFieldDecl (Ann Tstr) (Field [Kw.min_length 1; Kw.max_length 255]))
            ∈ model_fields ItemPublic) as Hin by in_fields.
    specialize (Hok _ Hin). revert Hok. field_check. by rewrite Htitle.
  - intros Htitle. apply model_validate_ok_iff.
    let l := eval vm_compute in (model_fields ItemPublic) in
    change (model_fields ItemPublic) with l.
    repeat first [apply Forall_nil_2 | apply Forall_cons_2];
      unfold field_error; cbn [fst snd].
    + rewrite Ht. field_check. rewrite Hs.
      destruct s as [|a s]; [done|]. done.
    + rewrite Hd. by rewrite Hvd.
    + rewrite Hi. revert Hvi. unfold validate_value. cbn. by destruct vi.
    + rewrite Ho. revert Hvo. unfold validate_value. cbn. by destruct vo.
  - intros Htitle. eapply model_validate_fails_with; [in_fields|].
    field_check. by rewrite Htitle.
Qed.

(** X8.  Building a transfer shape (any class of the module that is not a
    table) reads neither the random source nor the clock: the world after
    the construction is the world before it. *)
Theorem X8_transfer_shapes_read_nothing (c : ModelClass) (data : record) (w : World) :
  c ∈ all_classes -> is_table c = false -> (init email_valid c data w).2 = w.
Proof.
  intros Hc Ht. rewrite init_not_table by done.
  assert (Forall (fun nd : string * FieldDecl =>
                    forall f, field_default nd.2 ≠ DefaultFactory f) (model_fields c)) as Hnone.
  { unfold all_classes in Hc. rewrite !elem_of_cons, elem_of_nil in Hc.
    repeat (destruct Hc as [->|Hc]); try done;
      match goal with
      | |- Forall _ (model_fields ?k) =>
          let l := eval vm_compute in (model_fields k) in change (model_fields k) with l
      end;
      repeat first [apply Forall_nil_2 | apply Forall_cons_2]; intros f; by cbn. }
  unfold model_validate.
  assert (forall st : RunState,
            (validate_fields email_valid (model_fields c) data st).2 = st.2) as Hw.
  { unfold validate_fields. induction Hnone as [|[n d] fs Hd _ IH]; intros st; [done|].
    cbn [foldl]. rewrite IH. destruct st as [[r errs] w1]. unfold validate_field.
    destruct (data !! n) as [v|]; [by destruct (validate_value email_valid d v)|].
    cbn [snd] in Hd. destruct (field_default d) as [|v|f]; [done|done|].
    by specialize (Hd f). }
  specialize (Hw (∅, [], w)).
  by destruct (validate_fields email_valid (model_fields c) data (∅, [], w)) as [[r errs] w1].
Qed.

(** X9.  Every table class takes its [id] from [uuid4] when none is
    supplied: the row built then holds the next draw of the random source
    and the construction consumes exactly that one draw; a supplied [id]
    is kept and no draw is consumed.  Rows built one after the other
    therefore hold successive draws. *)
Theorem X9_table_ids (c : ModelClass) (data r : record) (w w' : World) :
  c ∈ tables -> init email_valid c data w = (Ok r, w') ->
  (data !! "id" = None ->
     r !! "id" = Some (VUuid (uuids w (uuid_calls w)))
     /\ uuid_calls w' = Datatypes.S (uuid_calls w))
  /\ (forall v, data !! "id" = Some v ->
        r !! "id" = Some v /\ uuid_calls w' = uuid_calls w).
Proof.
  intros Hc Hinit.
  assert (is_table c = true
          /\ (exists d, (("id", d) ∈ model_fields c)
                        /\ field_default d = DefaultFactory uuid4)
          /\ draws uuid4 data (model_fields c)
             = match data !! "id" with None => 1%nat | Some _ => 0%nat end)
    as (Ht & (d & Hd & Hdef) & Hdraws).
  { unfold tables in Hc. rewrite !elem_of_cons, elem_of_nil in Hc.
    repeat (destruct Hc as [->|Hc]); try done;
      (split; [done|]; split; [eexists; split; [in_fields|done]|]);
      match goal with
      | |- context [model_fields ?k] =>
          let l := eval vm_compute in (model_fields k) in change (model_fields k) with l
      end;
      unfold draws; cbn -[lookup]; by destruct (data !! "id"). }
  unfold init in Hinit. rewrite Ht in Hinit.
  pose proof (construct_draws data (model_fields c) ∅ w) as [Hcalls _].
  fold (sqlmodel_table_construct c data w) in Hcalls.
  pose proof (construct_lookup c data w "id" d
                (model_fields_nodup c) Hd) as (r1 & w1 & Hw1 & Hw2 & Hlook & _).
  destruct (sqlmodel_table_construct c data w) as [r0 w0'] eqn:E.
  injection Hinit as <- <-. cbn [fst snd] in *. rewrite Hdraws in Hcalls.
  split.
  - intros Hnone. rewrite Hnone in Hcalls.
    revert Hw2 Hlook. unfold construct_field. rewrite Hnone, Hdef. cbn.
    intros (_ & _ & Hw2 & _) ->. cbn in Hw2.
    destruct Hw1 as (Hu & _ & Hw1 & _). rewrite lookup_insert_eq.
    split; [|lia]. rewrite Hu. do 3 f_equal. lia.
  - intros v Hv. rewrite Hv in Hcalls.
    revert Hlook. unfold construct_field. rewrite Hv. cbn. intros ->.
    rewrite lookup_insert_eq. split; [done|lia].
Qed.

(** X18.  An explicit [None] is accepted for a field exactly when the
    field is annotated [T | None]: under such a field [None] is never
    reported, and under any other field it is reported with a type error
    (so the update shape UserUpdate takes [None] for [email], [password]
    and [full_name] but not for [is_active] or [is_superuser]). *)
Theorem X18_none_only_where_optional (c : ModelClass) (n : string) (d : FieldDecl)
    (data : record) (w : World) :
  lookup_field c n = Some d -> data !! n = Some VNone ->
  match annotation d with
  | OrNone _ => forall e, ~ fails_with (model_validate email_valid c data w).1 n e
  | Ann _ => exists e, fails_with (model_validate email_valid c data w).1 n e
  end.
Proof.
  intros Hd Hv. destruct (annotation d) as [t|t] eqn:Ha.
  - assert (exists e, validate_value email_valid d VNone = Invalid e) as [e He].
    { unfold validate_value. rewrite Ha. destruct t; by eexists. }
    exists e. eapply model_validate_fails_with; [by apply assoc_elem_of|].
    unfold field_error. cbn [fst snd]. by rewrite Hv, He.
  - eapply valid_field_not_reported with (v' := VNone);
      [apply model_fields_nodup | done | done |].
    unfold validate_value. by rewrite Ha.
Qed.

(** X19.  In every class, a field declared with a default value and left
    out of the input holds that default in the instance built ([token_type]
    of Token is [bearer], [sub] of TokenPayload is [None], [started_at]
    and [delivered_at] of Delivery are [None], and so on). *)
Theorem X19_declared_defaults (c : ModelClass) (n : string) (d : FieldDecl) (v : value)
    (data r : record) (w w' : World) :
  lookup_field c n = Some d -> field_default d = DefaultValue v ->
  data !! n = None -> init email_valid c data w = (Ok r, w') ->
  r !! n = Some v.
Proof.
  intros Hd Hdef Hnone Hinit.
  eapply init_lookup_default;
    [apply model_fields_nodup | by apply assoc_elem_of | done..].
Qed.


End Extras.

(** ** The schema is well formed *)

(** X10.  Every table class has exactly one primary key, the UUID field
    [id] defaulting to [uuid4].  Only table classes declare foreign keys,
    and each foreign key is a UUID column that names the [id] column of the
    table of some table class of the module. *)
Theorem X10_keys_resolve (c : ModelClass) (n t : string) :
  (c ∈ tables ->
     exists d, primary_keys c = [("id", d)]
               /\ annotation d = Ann TUUID /\ field_default d = DefaultFactory uuid4)
  /\ (c ∈ all_classes -> (n, t) ∈ foreign_keys c ->
      is_table c = true /\ fk_resolves t = true
      /\ (fun d => base_type (annotation d)) <$> lookup_field c n = Some TUUID).
Proof.
  split.
  - intros Hc. unfold tables in Hc. rewrite !elem_of_cons, elem_of_nil in Hc.
    repeat (destruct Hc as [->|Hc]); try done;
      (eexists; split; [by vm_compute|split; done]).
  - intros Hc Hfk.
    assert (Forall (fun k => Forall (fun nt : string * string =>
                       is_table k = true /\ fk_resolves nt.2 = true
                       /\ (fun d => base_type (annotation d)) <$> lookup_field k nt.1
                          = Some TUUID) (foreign_keys k)) all_classes) as Hall
        by by_evaluation.
    rewrite Forall_forall in Hall. specialize (Hall c Hc).
    rewrite Forall_forall in Hall. exact (Hall (n, t) Hfk).
Qed.

(** X11.  Every relationship of a table class targets a table class of
    the module and joins on exactly one foreign key column (where a class
    holds two foreign keys to the same table, [foreign_keys] picks one);
    where it names [back_populates], the target declares that attribute as
    a relationship pointing back, naming it in turn.  The classes that are
    not tables declare no relationship. *)
Theorem X11_relationships_resolve (c : ModelClass) (nr : string * RelDecl) :
  c ∈ all_classes -> nr ∈ relationships c ->
  is_table c = true /\ relationship_ok c nr = true.
Proof.
  intros Hc Hnr.
  assert (Forall (fun k => Forall (fun x => is_table k = true /\ relationship_ok k x = true)
                                  (relationships k)) all_classes) as Hall
      by by_evaluation.
  rewrite Forall_forall in Hall. specialize (Hall c Hc).
  rewrite Forall_forall in Hall. exact (Hall nr Hnr).
Qed.

(** ** Updates *)

Lemma restamp_other changes (st : record * World) nf k :
  k ≠ nf.1 -> (restamp changes st nf).1 !! k = st.1 !! k.
Proof.
  intros Hne. destruct st as [r w]. unfold restamp.
  destruct (changes !! nf.1); [done|].
  destruct (call nf.2 w). cbn [fst]. by rewrite lookup_insert_ne.
Qed.

Lemma restamp_changed changes (st : record * World) nf k :
  is_Some (changes !! k) -> (restamp changes st nf).1 !! k = st.1 !! k.
Proof.
  intros Hk. destruct (decide (k = nf.1)) as [->|Hne]; [|by apply restamp_other].
  destruct st as [r w]. unfold restamp. by destruct Hk as [v ->].
Qed.

Lemma foldl_restamp_keeps changes cols (st : record * World) k :
  is_Some (changes !! k) \/ k ∉ cols.*1 ->
  (foldl (restamp changes) st cols).1 !! k = st.1 !! k.
Proof.
  revert st. induction cols as [|nf cols IH]; intros st Hk; [done|].
  cbn [foldl]. rewrite IH.
  - destruct Hk as [Hk|Hk]; [by apply restamp_changed|].
    apply restamp_other. intros ->. apply Hk. rewrite fmap_cons. by left.
  - destruct Hk as [Hk|Hk]; [by left|]. right. intros Hin. apply Hk.
    rewrite fmap_cons. by right.
Qed.

(** X12.  An update writes the changed columns and, besides them, only
    columns declared with [onupdate]: after the flush a changed column
    holds its new value, and a column that is neither changed nor declared
    with [onupdate] holds what the row held before. *)
Theorem X12_update_frame (c : ModelClass) (changes row : record) (w : World) (k : string) :
  (forall v, changes !! k = Some v ->
     (flush_update c changes row w).1 !! k = Some v)
  /\ (changes !! k = None -> k ∉ (onupdate_columns c).*1 ->
      (flush_update c changes row w).1 !! k = row !! k).
Proof.
  unfold flush_update. split.
  - intros v Hv. rewrite decide_False by (intros ->; by rewrite lookup_empty in Hv).
    rewrite foldl_restamp_keeps by (left; by eexists). cbn [fst].
    by apply lookup_union_Some_l.
  - intros Hnone Hk. case_decide; [done|].
    rewrite foldl_restamp_keeps by by right. cbn [fst]. by apply lookup_union_r.
Qed.

(** ** Deletion *)

Lemma session_delete_elem store x y :
  y ∈ session_delete store x <-> y ∈ store /\ key y ∉ deleted_with store x.
Proof.
  unfold session_delete.
  rewrite (list_elem_of_In (List.filter _ store) y), filter_In, negb_true_iff.
  by rewrite bool_decide_eq_false, <- list_elem_of_In.
Qed.



(** X15.  Deleting a User deletes the Items it owns: no Item of the store
    whose [owner_id] is the user's [id] is left. *)
Theorem X15_delete_user_cascades (store : list Row) (u it : Row) (id : N) :
  row_class u = User -> uuid_at (attrs u) "id" = Some id ->
  row_class it = Item -> uuid_at (attrs it) "owner_id" = Some id ->
  it ∉ session_delete store u.
Proof.
  intros Hu Hid Hit Hown [Hin Hgone]%session_delete_elem.
  apply Hgone. by eapply delete_user_deletes_items.
Qed.



(** * The further properties at sample inputs *)

(** A validation known to succeed, as the record and world it returns. *)
Ltac validated H :=
  match goal with
  | |- context [model_validate ?ev ?c ?data ?w] =>
      destruct (model_validate ev c data w) as [[?r|?errs] ?w'] eqn:H;
      [|exfalso; vm_compute in H; discriminate H]
  end.




(** X4 at a sample input: a UserRegister built from nothing. *)
Lemma X4_witness :
  fails_with (model_validate only_example_org UserRegister ∅ w0).1 "email" missing
  /\ fails_with (model_validate only_example_org UserRegister ∅ w0).1 "password" missing
  /\ ~ fails_with (model_validate only_example_org UserRegister ∅ w0).1 "full_name" missing.
Proof.
  repeat apply conj.
  - apply (X4_missing_iff_required only_example_org UserRegister "email" ∅ w0).
    split; [apply lookup_empty|]. eexists. split; reflexivity.
  - apply (X4_missing_iff_required only_example_org UserRegister "password" ∅ w0).
    split; [apply lookup_empty|]. eexists. split; reflexivity.
  - intros H.
    apply (X4_missing_iff_required only_example_org UserRegister "full_name" ∅ w0) in H
      as (_ & d & Hd & Hreq).
    vm_compute in Hd. injection Hd as <-. discriminate Hreq.
Defined.



(** X7 at a sample input: an Item with the empty title. *)
Lemma X7_witness :
  exists it w',
    model_validate only_example_org Item
      {[ "title" := VStr ""; "owner_id" := VUuid 5 ]} w0 = (Ok it, w')
    /\ fails_with (model_validate only_example_org ItemPublic it w0).1
                  "title" string_too_short.
Proof.
  validated E. exists r, w'. split; [done|].
  apply (X7_item_public_projection only_example_org _ r w0 w' w0 E).
  apply model_validate_record in E as ->.
  by vm_compute.
Defined.

(** X8 at a sample input: a UserCreate built from nothing. *)
Lemma X8_witness : (init only_example_org UserCreate ∅ w0).2 = w0.
Proof.
  apply (X8_transfer_shapes_read_nothing only_example_org UserCreate ∅ w0);
    [in_classes | reflexivity].
Defined.

(** X9 at a sample input: an Order built from nothing takes the first
    draw. *)
Lemma X9_witness :
  exists r w',
    init only_example_org Order ∅ w0 = (Ok r, w')
    /\ r !! "id" = Some (VUuid 0) /\ uuid_calls w' = 1%nat.
Proof.
  destruct (init only_example_org Order ∅ w0) as [[r|errs] w'] eqn:E;
    [|exfalso; vm_compute in E; discriminate E].
  exists r, w'. split; [done|].
  destruct (X9_table_ids only_example_org Order ∅ r w0 w') as [Hnew _];
    [in_classes | exact E |].
  apply Hnew. apply lookup_empty.
Defined.

(** X10 at a sample input: the sender address of an Order. *)
Lemma X10_witness :
  is_table Order = true /\ fk_resolves "address.id" = true
  /\ (fun d => base_type (annotation d)) <$> lookup_field Order "sender_address_id"
     = Some TUUID.
Proof.
  apply (X10_keys_resolve Order "sender_address_id" "address.id"); [in_classes|].
  by_evaluation.
Defined.

(** X11 at a sample input: the sender address relationship of an Order. *)
Lemma X11_witness :
  relationship_ok Order
    ("sender_address",
     mkRelDecl (One "Address")
       [RelKw.sa_relationship_kwargs [("foreign_keys", "[Order.sender_address_id]")]])
  = true.
Proof.
  apply (X11_relationships_resolve Order); [in_classes|].
  let l := eval vm_compute in (relationships Order) in
  change (relationships Order) with l.
  apply list_elem_of_here.
Defined.

(** X12 at a sample input: the status of an order changed. *)
Lemma X12_witness :
  (flush_update Order {[ "status" := VStr "confirmed" ]} (attrs order10) w0).1 !! "status"
    = Some (VStr "confirmed")
  /\ (flush_update Order {[ "status" := VStr "confirmed" ]} (attrs order10) w0).1 !! "id"
     = attrs order10 !! "id".
Proof.
  split.
  - apply (X12_update_frame Order {[ "status" := VStr "confirmed" ]} (attrs order10) w0
             "status"). apply lookup_singleton_eq.
  - apply (X12_update_frame Order {[ "status" := VStr "confirmed" ]} (attrs order10) w0 "id");
      [by apply lookup_singleton_ne | by_evaluation].
Defined.



(** X15 at a sample input: deleting the user deletes its item. *)
Lemma X15_witness : item31 ∉ session_delete sample_store user5.
Proof.
  apply (X15_delete_user_cascades sample_store user5 item31 5); reflexivity.
Defined.



(** X18 at a sample input: [None] for [is_active] and for [email] of a
    UserUpdate. *)
Lemma X18_witness :
  (exists e, fails_with (model_validate only_example_org UserUpdate
                           {[ "is_active" := VNone ]} w0).1 "is_active" e)
  /\ (forall e, ~ fails_with (model_validate only_example_org UserUpdate
                                {[ "email" := VNone ]} w0).1 "email" e).
Proof.
  split.
  - apply (X18_none_only_where_optional only_example_org UserUpdate "is_active"
             (mkFieldDecl (Ann Tbool) (Assign (VBool true))) {[ "is_active" := VNone ]} w0);
      [reflexivity | apply lookup_singleton_eq].
  - apply (X18_none_only_where_optional only_example_org UserUpdate "email"
             (mkFieldDecl (OrNone TEmailStr) (Field [Kw.default VNone; Kw.max_length 255]))
             {[ "email" := VNone ]} w0);
      [reflexivity | apply lookup_singleton_eq].
Defined.

(** X19 at a sample input: the token type of a Token. *)
Lemma X19_witness :
  exists r w',
    init only_example_org Token {[ "access_token" := VStr "abc" ]} w0 = (Ok r, w')
    /\ r !! "token_type" = Some (VStr "bearer").
Proof.
  destruct (init only_example_org Token {[ "access_token" := VStr "abc" ]} w0)
    as [[r|errs] w'] eqn:E; [|exfalso; vm_compute in E; discriminate E].
  exists r, w'. split; [done|].
  apply (X19_declared_defaults only_example_org Token "token_type"
           (mkFieldDecl (Ann Tstr) (Assign (VStr "bearer"))) (VStr "bearer")
           {[ "access_token" := VStr "abc" ]} r w0 w');
    [reflexivity | reflexivity | by apply lookup_singleton_ne | exact E].
Defined.

